(** * A convolutional variational autoencoder: construction, losses, persistence

    Shallow embedding of [src/models/variationalautoencoder.py].

    The Python class builds three Keras models (encoder, decoder and their
    composition), defines the losses used for training and saves / reloads
    itself.  The embedding keeps the structure of the class:

    - the object [self] is a record with the attributes of the class,
      threaded through the [build_*] methods;
    - building is a computation in a monad [M] that logs the layer objects
      it constructs and may raise an exception;
    - symbolic tensors are tracked by their static shape (batch axis left
      out, as in [K.int_shape(x)[1:]]) and by the chain of layers that
      produced them;
    - the numeric parts (sampling, losses) are functions on real-valued
      tensors;
    - [save] and [load] run in a second monad [IO] over a file system and
      the log of constructed layers, with the two serializers as
      parameters. *)

From Stdlib Require Import ZArith Reals Lra Lia.
From stdpp Require Import base list strings gmap pretty.

Local Open Scope Z_scope.

(** ** Python values and exceptions *)

(** The exceptions that the modelled code paths can raise. *)
Inductive exn :=
| AssertionError (msg : string)
| IndexError
| AttributeError
| ValueError
| FileNotFoundError.

(** [kernel_size] and [strides] of a convolution are an int or a pair of
    ints; Keras normalises an int [n] to [(n, n)]. *)
Inductive int_or_pair :=
| IntV (n : Z)
| PairV (a b : Z).

Definition normalize_tuple (v : int_or_pair) : Z * Z :=
  match v with
  | IntV n => (n, n)
  | PairV a b => (a, b)
  end.

Inductive padding := PadSame | PadValid.

(** ** Keras layers *)

Inductive layer :=
| InputLayer (shape : list Z) (name : string)
| Conv2D (filters : Z) (kernel_size strides : int_or_pair) (pad : padding) (name : string)
| ReLU (name : string)
| BatchNormalization (name : string)
| Flatten
| Dense (units : Z) (name : string)
| Lambda (name : string)
| Reshape (target_shape : list Z)
| Conv2DTranspose (filters : Z) (kernel_size strides : int_or_pair) (pad : padding) (name : string)
| Activation (fn : string) (name : string)
| SubModel (name : option string) (weights : list (list Z)).

(** [np.prod] of a shape. *)
Definition np_prod (shape : list Z) : Z := foldr Z.mul 1 shape.

(** Modelled from the spec: Keras is not part of the sources.  Output length
    of a convolution along one axis ([conv_utils.conv_output_length]); with
    same-padding the output spatial size is ceil(input/stride). *)
Definition conv_output_length (input_length filter_size : Z) (pad : padding) (stride : Z) : Z :=
  match pad with
  | PadSame => (input_length + stride - 1) / stride
  | PadValid => (input_length - filter_size + 1 + stride - 1) / stride
  end.

(** Modelled from the spec: Keras is not part of the sources.  Output length
    of a transposed convolution along one axis
    ([conv_utils.deconv_output_length]); with same-padding it is the upsampling
    inverse of the convolution, input * stride. *)
Definition deconv_output_length (input_length filter_size : Z) (pad : padding) (stride : Z) : Z :=
  match pad with
  | PadSame => input_length * stride
  | PadValid => input_length * stride + Z.max (filter_size - stride) 0
  end.

(** Static shape inference of one layer on a per-sample shape; [None] where
    Keras rejects the call with a [ValueError]. *)
Definition compute_output_shape (ly : layer) (shape : list Z) : option (list Z) :=
  match ly with
  | InputLayer s _ => Some s
  | Conv2D f k s pad _ =>
      let '(kh, kw) := normalize_tuple k in
      let '(sh, sw) := normalize_tuple s in
      match shape with
      | [h; w; _] =>
          if decide (0 < sh ∧ 0 < sw)
          then Some [conv_output_length h kh pad sh; conv_output_length w kw pad sw; f]
          else None
      | _ => None
      end
  | Conv2DTranspose f k s pad _ =>
      let '(kh, kw) := normalize_tuple k in
      let '(sh, sw) := normalize_tuple s in
      match shape with
      | [h; w; _] =>
          if decide (0 < sh ∧ 0 < sw)
          then Some [deconv_output_length h kh pad sh; deconv_output_length w kw pad sw; f]
          else None
      | _ => None
      end
  | ReLU _ | BatchNormalization _ | Activation _ _ | Lambda _ => Some shape
  | Flatten => Some [np_prod shape]
  | Dense u _ =>
      match reverse shape with
      | _ :: front => Some (reverse front ++ [u])
      | [] => None
      end
  | Reshape target =>
      if decide (np_prod target = np_prod shape) then Some target else None
  | SubModel _ _ => None
  end.

(** Shapes of the variables a layer creates when first called on an input of
    the given shape (kernel and bias; the four vectors of a batch
    normalisation). *)
Definition weight_shapes (ly : layer) (shape : list Z) : list (list Z) :=
  match ly with
  | Conv2D f k _ _ _ =>
      let '(kh, kw) := normalize_tuple k in
      [[kh; kw; default 0 (last shape); f]; [f]]
  | Conv2DTranspose f k _ _ _ =>
      let '(kh, kw) := normalize_tuple k in
      [[kh; kw; f; default 0 (last shape)]; [f]]
  | Dense u _ => [[default 0 (last shape); u]; [u]]
  | BatchNormalization _ =>
      let c := default 0 (last shape) in [[c]; [c]; [c]; [c]]
  | SubModel _ ws => ws
  | _ => []
  end.

(** ** Building a Keras graph *)

(** Building is a computation that logs every layer object it constructs,
    oldest first, and either returns a value or raises an exception.  The
    log of a failed computation holds what had been constructed when the
    exception was raised. *)
Definition M (A : Type) : Type := list layer * (exn + A).

#[export] Instance M_ret : MRet M := λ A (a : A), ([], inr a).
#[export] Instance M_bind : MBind M := λ A B (f : A → M B) (c : M A),
  match c with
  | (log, inr a) => let '(log', r) := f a in (log ++ log', r)
  | (log, inl e) => (log, inl e)
  end.

Definition raise {A} (e : exn) : M A := ([], inl e).

Definition log_layer (ly : layer) : M () := ([ly], inr ()).

(** [assert cond, msg] *)
Definition assert (cond : bool) (msg : string) : M () :=
  if cond then mret () else raise (AssertionError msg).

(** [xs[i]] for a non-negative index. *)
Definition getitem {A} (xs : list A) (i : nat) : M A :=
  match xs !! i with
  | Some x => mret x
  | None => raise IndexError
  end.

(** A [for] loop threading the loop-carried value [x]. *)
Fixpoint for_each {A X} (xs : list A) (x : X) (body : A → X → M X) : M X :=
  match xs with
  | [] => mret x
  | a :: xs' => x' ← body a x; for_each xs' x' body
  end.

(** One layer as it sits in a graph: the layer and the shape it was called
    on, which together fix the shapes of its variables. *)
Record node := { node_layer : layer; node_input_shape : list Z }.

(** A symbolic tensor: static per-sample shape and the layers of the graph
    that lead to it, from the model input, in order of creation. *)
Record KTensor := { int_shape : list Z; history : list node }.

(** [Input(shape=..., name=...)] *)
Definition Input (shape : list Z) (name : string) : M KTensor :=
  log_layer (InputLayer shape name);;
  mret {| int_shape := shape;
          history := [{| node_layer := InputLayer shape name;
                         node_input_shape := shape |}] |}.

(** [L(...)(x)]: constructs the layer, then calls it on [x]. *)
Definition apply_layer (ly : layer) (x : KTensor) : M KTensor :=
  log_layer ly;;
  match compute_output_shape ly (int_shape x) with
  | None => raise ValueError
  | Some out =>
      mret {| int_shape := out;
              history := history x ++ [{| node_layer := ly;
                                          node_input_shape := int_shape x |}] |}
  end.

(** A Keras functional model from its input to its output tensor. *)
Record Model := {
  model_name : option string;
  model_input : KTensor;
  model_output : KTensor
}.

Definition model_layers (m : Model) : list node := history (model_output m).

(** Shapes of the variables of a chain of layers, in order of creation. *)
Definition nodes_weight_shapes (nodes : list node) : list (list Z) :=
  concat ((λ nd, weight_shapes (node_layer nd) (node_input_shape nd)) <$> nodes).

Definition model_weight_shapes (m : Model) : list (list Z) :=
  nodes_weight_shapes (model_layers m).

(** [m(x)]: a model used as a layer; it brings its own variables along. *)
Definition call_model (m : Model) (x : KTensor) : M KTensor :=
  if decide (int_shape x = int_shape (model_input m))
  then mret {| int_shape := int_shape (model_output m);
               history := history x ++
                 [{| node_layer := SubModel (model_name m) (model_weight_shapes m);
                     node_input_shape := int_shape x |}] |}
  else raise ValueError.

(** ** The class [VariationalAutoencoder] *)

(** The attributes of an instance.  [shape_before_ls], [mu] and [sigma] do
    not exist before [build_encoder] has run; [encoder], [decoder], [model]
    and [input] start as [None]. *)
Record VariationalAutoencoder := {
  input_shape : list Z;
  filters : list Z;
  kernels : list int_or_pair;
  strides : list int_or_pair;
  latent_space_shape : Z;
  n_conv_layers : nat;
  encoder : option Model;
  decoder : option Model;
  model : option Model;
  input : option KTensor;
  shape_before_ls : option (list Z);
  mu : option KTensor;
  sigma : option KTensor
}.

Definition set_encoder_attrs (self : VariationalAutoencoder)
    (inp : KTensor) (sbl : list Z) (m s : KTensor) (enc : Model) : VariationalAutoencoder :=
  {| input_shape := input_shape self; filters := filters self;
     kernels := kernels self; strides := strides self;
     latent_space_shape := latent_space_shape self;
     n_conv_layers := n_conv_layers self;
     encoder := Some enc; decoder := decoder self; model := model self;
     input := Some inp; shape_before_ls := Some sbl;
     mu := Some m; sigma := Some s |}.

Definition set_decoder (self : VariationalAutoencoder) (dec : Model) : VariationalAutoencoder :=
  {| input_shape := input_shape self; filters := filters self;
     kernels := kernels self; strides := strides self;
     latent_space_shape := latent_space_shape self;
     n_conv_layers := n_conv_layers self;
     encoder := encoder self; decoder := Some dec; model := model self;
     input := input self; shape_before_ls := shape_before_ls self;
     mu := mu self; sigma := sigma self |}.

Definition set_model (self : VariationalAutoencoder) (mdl : Model) : VariationalAutoencoder :=
  {| input_shape := input_shape self; filters := filters self;
     kernels := kernels self; strides := strides self;
     latent_space_shape := latent_space_shape self;
     n_conv_layers := n_conv_layers self;
     encoder := encoder self; decoder := decoder self; model := Some mdl;
     input := input self; shape_before_ls := shape_before_ls self;
     mu := mu self; sigma := sigma self |}.

(** Reading an attribute that was never assigned. *)
Definition getattr {A} (a : option A) : M A :=
  match a with
  | Some v => mret v
  | None => raise AttributeError
  end.

(** The body of the encoder loop, for layer index [l]. *)
Definition encoder_block (self : VariationalAutoencoder) (l : nat) (x : KTensor) : M KTensor :=
  f ← getitem (filters self) l;
  k ← getitem (kernels self) l;
  s ← getitem (strides self) l;
  x ← apply_layer (Conv2D f k s PadSame ("encoder_conv_layer_" +:+ pretty (l + 1)%nat)) x;
  x ← apply_layer (ReLU ("encoder_relu_" +:+ pretty (l + 1)%nat)) x;
  apply_layer (BatchNormalization ("encoder_bn_" +:+ pretty (l + 1)%nat)) x.

Definition build_encoder (self : VariationalAutoencoder) : M VariationalAutoencoder :=
  inp ← Input (input_shape self) "encoder_input";
  x ← for_each (seq 0 (n_conv_layers self)) inp (encoder_block self);
  let sbl := int_shape x in
  x ← apply_layer Flatten x;
  m ← apply_layer (Dense (latent_space_shape self) "mu") x;
  s ← apply_layer (Dense (latent_space_shape self) "sigma")
        {| int_shape := int_shape x; history := history m |};
  z ← apply_layer (Lambda "encoder_output")
        {| int_shape := int_shape m; history := history s |};
  mret (set_encoder_attrs self inp sbl m s
          {| model_name := Some "encoder"; model_input := inp; model_output := z |}).

(** The body of the decoder loop, for layer index [l]. *)
Definition decoder_block (self : VariationalAutoencoder) (l : nat) (x : KTensor) : M KTensor :=
  f ← getitem (filters self) l;
  k ← getitem (kernels self) l;
  s ← getitem (strides self) l;
  x ← apply_layer (Conv2DTranspose f k s PadSame
         ("decoder_conv_transpose_layer_" +:+ pretty (n_conv_layers self - l)%nat)) x;
  x ← apply_layer (ReLU ("decoder_relu_" +:+ pretty (n_conv_layers self - l)%nat)) x;
  apply_layer (BatchNormalization ("decoder_bn_" +:+ pretty (n_conv_layers self - l)%nat)) x.

Definition build_decoder (self : VariationalAutoencoder) : M VariationalAutoencoder :=
  input_layer ← Input [latent_space_shape self] "decoder_input";
  sbl ← getattr (shape_before_ls self);
  x ← apply_layer (Dense (np_prod sbl) "decoder_dense") input_layer;
  x ← apply_layer (Reshape sbl) x;
  x ← for_each (reverse (seq 1 (n_conv_layers self - 1))) x (decoder_block self);
  k ← getitem (kernels self) 0;
  s ← getitem (strides self) 0;
  x ← apply_layer (Conv2DTranspose 1 k s PadSame
         ("decoder_conv_transpose_layer_" +:+ pretty (n_conv_layers self))) x;
  x ← apply_layer (Activation "sigmoid" "sigmoid_layer") x;
  mret (set_decoder self
          {| model_name := Some "decoder"; model_input := input_layer; model_output := x |}).

Definition build_vae (self : VariationalAutoencoder) : M VariationalAutoencoder :=
  enc ← getattr (encoder self);
  dec ← getattr (decoder self);
  inp ← getattr (input self);
  z ← call_model enc inp;
  model_output ← call_model dec z;
  mret (set_model self
          {| model_name := None; model_input := inp; model_output := model_output |}).

Definition build_model (self : VariationalAutoencoder) : M VariationalAutoencoder :=
  self ← build_encoder self;
  self ← build_decoder self;
  build_vae self.

(** [VariationalAutoencoder(input_shape, filters, kernels, strides,
    latent_space_shape)] *)
Definition init (input_shape : list Z) (filters : list Z)
    (kernels strides : list int_or_pair) (latent_space_shape : Z)
    : M VariationalAutoencoder :=
  let n := length filters in
  assert (bool_decide (length kernels = n))
    "Number of kernels should be same than number of filters.";;
  assert (bool_decide (length strides = n))
    "Number of strides should be same than number of filters.";;
  build_model
    {| input_shape := input_shape; filters := filters; kernels := kernels;
       strides := strides; latent_space_shape := latent_space_shape;
       n_conv_layers := n;
       encoder := None; decoder := None; model := None; input := None;
       shape_before_ls := None; mu := None; sigma := None |}.

(** The end-to-end scenario of the specification. *)
Definition scenario : M VariationalAutoencoder :=
  init [28; 28; 1] [32; 64] [IntV 3; IntV 3] [IntV 1; IntV 2] 2.

(** Ceiling of a quotient, written as in Python: [-(-a // b)]. *)
Definition ceil_div (a b : Z) : Z := - ((- a) / b).




(** ** Numeric tensors and the backend operations used by the losses *)

(** A batch of latent vectors (batch x latent_dim) and a batch of images
    (batch x height x width x channels), as nested lists of reals. *)
Abbreviation tensor2 := (list (list R)).
Abbreviation tensor3 := (list (list (list R))).
Abbreviation tensor4 := (list (list (list (list R)))).

(** Element-wise operations on tensors of the same shape. *)
Definition map2 (f : R → R) (t : tensor2) : tensor2 :=
  (λ row : list R, f <$> row) <$> t.
Definition zip2 (f : R → R → R) (a b : tensor2) : tensor2 := zip_with (zip_with f) a b.
Definition map4 (f : R → R) (t : tensor4) : tensor4 :=
  (λ sample : tensor3, map2 f <$> sample) <$> t.
Definition zip4 (f : R → R → R) (a b : tensor4) : tensor4 :=
  zip_with (zip_with (zip2 f)) a b.

Definition Rsum (xs : list R) : R := foldr Rplus 0%R xs.

(** [K.square], [K.exp] *)
Definition K_square (x : R) : R := (x * x)%R.
Definition K_exp (x : R) : R := exp x.

(** [K.sum(t, axis=1)] of a 2D tensor: one sum per row. *)
Definition K_sum_axis1 (t : tensor2) : list R := Rsum <$> t.

(** [K.mean(t, axis=[1, 2, 3])] of a 4D tensor: for every sample, the sum of
    all its entries divided by their number. *)
Definition K_mean_axis123 (t : tensor4) : list R :=
  (λ sample : tensor3,
     let entries := concat (concat sample) in
     (Rsum entries / INR (length entries))%R) <$> t.

(** [K.shape] of a 2D tensor. *)
Definition K_shape (t : tensor2) : nat * nat :=
  (length t, default 0%nat (length <$> head t)).

Definition has_shape2 (shape : nat * nat) (t : tensor2) : Prop :=
  length t = shape.1 ∧ Forall (λ row, length row = shape.2) t.



Definition zeros2 (shape : nat * nat) : tensor2 :=
  replicate shape.1 (replicate shape.2 0%R).

(** Entry [(i, j)] of a 2D tensor and entry [(a, b, c)] of one sample. *)
Definition at1 (t : list R) (j : nat) : R := default 0%R (t !! j).
Definition at2 (t : tensor2) (i j : nat) : R := at1 (default [] (t !! i)) j.

(** Sum of [f 0 + ... + f (n - 1)]. *)
Definition sum_upto (n : nat) (f : nat → R) : R := Rsum (f <$> seq 0 n).

(** ** The sampling layer *)

(** The function wrapped by the [Lambda] layer.  [random_normal shape] is the
    draw of [K.random_normal(shape=shape, mean=0., stddev=1.)]; [self_mu] is
    the value of [self.mu], whose shape is requested. *)
Definition normal_distribution (random_normal : nat * nat → tensor2)
    (self_mu : tensor2) (args : tensor2 * tensor2) : tensor2 :=
  let '(mu, sigma) := args in
  let eps := random_normal (K_shape self_mu) in
  let z := zip2 Rplus mu (zip2 Rmult (map2 K_exp (map2 (λ s : R, s / 2)%R sigma)) eps) in
  z.

(** ** The losses *)

(** [compute_loss]: [K.mean(K.square(y_target - y_predicted), axis=[1, 2, 3])] *)
Definition compute_loss (y_target y_predicted : tensor4) : list R :=
  let error := zip4 Rminus y_target y_predicted in
  let loss := K_mean_axis123 (map4 K_square error) in
  loss.

(** [compute_kl_loss]; [self_mu] and [self_sigma] are the values of
    [self.mu] and [self.sigma] on the current batch. *)
Definition compute_kl_loss (self_mu self_sigma : tensor2)
    (y_target y_predicted : tensor4) : list R :=
  let kl_loss :=
    (λ s : R, -0.5 * s)%R <$>
      K_sum_axis1
        (zip2 Rminus
           (zip2 Rminus (map2 (λ s : R, 1 + s)%R self_sigma) (map2 K_square self_mu))
           (map2 K_exp self_sigma)) in
  kl_loss.

(** [compute_combined_loss]; [AE_LOSS_WEIGHT] is the constant imported from
    the module [config], which is not among the sources. *)
Definition compute_combined_loss (AE_LOSS_WEIGHT : R) (self_mu self_sigma : tensor2)
    (y_target y_predicted : tensor4) : list R :=
  let loss := compute_loss y_target y_predicted in
  let kl_loss := compute_kl_loss self_mu self_sigma y_target y_predicted in
  let loss_combined := zip_with Rplus (Rmult AE_LOSS_WEIGHT <$> loss) kl_loss in
  loss_combined.

(** What [compile] hands to Keras: the optimizer (Adam, with its learning
    rate), the loss and the metrics. *)
Record compiled := {
  optimizer_learning_rate : R;
  loss : tensor4 → tensor4 → list R;
  metrics : list (tensor4 → tensor4 → list R)
}.

(** [compile(learning_rate=0.0001)] *)
Definition compile (AE_LOSS_WEIGHT : R) (self_mu self_sigma : tensor2)
    (learning_rate : option R) : compiled :=
  {| optimizer_learning_rate := default 0.0001%R learning_rate;
     loss := compute_combined_loss AE_LOSS_WEIGHT self_mu self_sigma;
     metrics := [compute_combined_loss AE_LOSS_WEIGHT self_mu self_sigma;
                 compute_kl_loss self_mu self_sigma] |}.

(** ** Evaluating a chain of layers *)

(** The value of a variable (a kernel, a bias, ...): its shape and its
    entries in row-major order. *)
Record variable := { var_shape : list Z; var_data : list R }.



Section Forward.
(** Modelled from the spec: the arithmetic of the layers that own variables
    (dense maps, convolutions, normalization) is Keras's and not part of
    the sources; it is a parameter of the evaluation. *)
Variable weighted_layer : layer → list Z → list variable → list R → list R.


End Forward.



(** ** Reasoning about runs of [M] *)

(** [returns c a]: [c] returns [a] normally. *)
Definition returns {A} (c : M A) (a : A) : Prop := c.2 = inr a.

(** [wp c Q]: [c] returns normally and its result satisfies [Q]. *)
Definition wp {A} (c : M A) (Q : A → Prop) : Prop :=
  match c.2 with
  | inr a => Q a
  | inl _ => False
  end.


(** Spatial part of a per-sample shape (height, width). *)
Definition spatial_dims (shape : list Z) : list Z := take 2 shape.



(** The instance handed to [build_model] by the constructor. *)
Definition fresh_instance (input_shape : list Z) (filters : list Z)
    (kernels strides : list int_or_pair) (latent_space_shape : Z) : VariationalAutoencoder :=
  {| input_shape := input_shape; filters := filters; kernels := kernels;
     strides := strides; latent_space_shape := latent_space_shape;
     n_conv_layers := length filters;
     encoder := None; decoder := None; model := None; input := None;
     shape_before_ls := None; mu := None; sigma := None |}.

(** ** Saving and loading *)

(** The exceptions of [save] and [load]: those of the constructor and of
    the modelled code paths ([exn]), and those of the file system and of the
    two serializers. *)
Inductive io_exn :=
| Raised (e : exn)
| FileExistsError
| NotADirectoryError
| IsADirectoryError
| UnpicklingError
| OSError.

(** The list pickled by [save]: the five arguments of the constructor, in
    their order. *)
Record params := {
  p_input_shape : list Z;
  p_filters : list Z;
  p_kernels : list int_or_pair;
  p_strides : list int_or_pair;
  p_latent_space_shape : Z
}.

(** The content of a weights file: for every layer of the saved model, in
    order, its name and the values of its variables. *)
Definition snapshot : Type := list (string * list variable).

(** An instance together with the values of the variables of [self.model]
    (the encoder and the decoder use the same variables). *)
Record instance := { this : VariationalAutoencoder; variables : list variable }.

(** The name under which a layer is stored; layers built without a name get
    the name Keras derives from their class. *)
Definition layer_name (ly : layer) : string :=
  match ly with
  | InputLayer _ name | Conv2D _ _ _ _ name | ReLU name | BatchNormalization name
  | Dense _ name | Lambda name | Conv2DTranspose _ _ _ _ name | Activation _ name => name
  | Flatten => "flatten"
  | Reshape _ => "reshape"
  | SubModel name _ => default "model" name
  end.

(** [os.path.join(folder, name)] for a relative [name]. *)
Fixpoint ends_with_slash (s : string) : bool :=
  match s with
  | EmptyString => false
  | String c EmptyString => bool_decide (String c EmptyString = "/")
  | String _ rest => ends_with_slash rest
  end.

Definition os_path_join (folder name : string) : string :=
  if decide (folder = "") then name
  else if ends_with_slash folder then folder +:+ name
  else folder +:+ "/" +:+ name.

(** Modelled from the spec: Keras is not part of the sources.
    [model.save_weights]: the variables of the model, layer by layer, each
    layer under its name. *)
Fixpoint save_weights_nodes (nodes : list node) (vars : list variable) : snapshot :=
  match nodes with
  | [] => []
  | nd :: rest =>
      let k := length (weight_shapes (node_layer nd) (node_input_shape nd)) in
      (layer_name (node_layer nd), take k vars) :: save_weights_nodes rest (drop k vars)
  end.

Definition save_weights (m : Model) (vars : list variable) : snapshot :=
  save_weights_nodes (model_layers m) vars.

(** Modelled from the spec: Keras is not part of the sources.
    [model.load_weights]: the layers that own variables are matched in order
    with the stored layers that hold values; a different number of layers,
    of values in a layer, or a different shape of a value is an error ([None],
    a [ValueError]); otherwise every variable of the model takes the stored
    value. *)
Definition load_weights (m : Model) (snap : snapshot) : option (list variable) :=
  let stored := filter (λ vs : list variable, vs ≠ []) (snd <$> snap) in
  let expected :=
    filter (λ ss : list (list Z), ss ≠ [])
      ((λ nd, weight_shapes (node_layer nd) (node_input_shape nd)) <$> model_layers m) in
  if decide ((λ vs : list variable, var_shape <$> vs) <$> stored = expected)
  then Some (concat stored)
  else None.

Section Persistence.

(** Modelled from the spec: the serializers and the initial values of new
    variables are not part of the sources.  [bytes] is the content of a
    file; [pickle_dump] / [pickle_load] stand for [pickle.dump] /
    [pickle.load] on the parameter list, [h5_dump] / [h5_load] for the HDF5
    encoding of a weights file, and [initial_values i shape] for the value
    Keras gives to the [i]-th new variable of a model. *)
Variable bytes : Type.
Variable pickle_dump : params → bytes.
Variable pickle_load : bytes → option params.
Variable h5_dump : snapshot → bytes.
Variable h5_load : bytes → option snapshot.
Variable initial_values : nat → list Z → list R.

(** An entry of the file system: a directory or a regular file. *)
Inductive entry :=
| Directory
| RegularFile (content : bytes).

(** The world of [save] and [load]: the file system, by path, and the
    layers constructed so far. *)
Record world := { filesystem : gmap string entry; constructed : list layer }.

Definition IO (A : Type) : Type := world → world * (io_exn + A).

#[export] Instance IO_ret : MRet IO := λ A (a : A) w, (w, inr a).
#[export] Instance IO_bind : MBind IO := λ A B (f : A → IO B) (c : IO A) w,
  match c w with
  | (w', inr a) => f a w'
  | (w', inl e) => (w', inl e)
  end.

Definition io_raise {A} (e : io_exn) : IO A := λ w, (w, inl e).

(** A construction run inside [load]: its layers are added to the log. *)
Definition build {A} (c : M A) : IO A := λ w,
  ({| filesystem := filesystem w; constructed := constructed w ++ c.1 |},
   match c.2 with
   | inl e => inl (Raised e)
   | inr a => inr a
   end).

(** [os.path.exists(path)] *)
Definition os_path_exists (path : string) : IO bool := λ w,
  (w, inr (bool_decide (is_Some (filesystem w !! path)))).

(** [os.makedirs(path)]; intermediate directories are not tracked. *)
Definition os_makedirs (path : string) : IO () := λ w,
  if decide (path = "") then (w, inl (Raised FileNotFoundError))
  else match filesystem w !! path with
       | Some _ => (w, inl FileExistsError)
       | None => ({| filesystem := <[path := Directory]> (filesystem w);
                     constructed := constructed w |}, inr ())
       end.

(** [with open(path, 'wb') as f: f.write(content)], for a [path] directly
    inside [folder]. *)
Definition write_file (folder path : string) (content : bytes) : IO () := λ w,
  match filesystem w !! folder with
  | None => (w, inl (Raised FileNotFoundError))
  | Some (RegularFile _) => (w, inl NotADirectoryError)
  | Some Directory =>
      match filesystem w !! path with
      | Some Directory => (w, inl IsADirectoryError)
      | _ => ({| filesystem := <[path := RegularFile content]> (filesystem w);
                 constructed := constructed w |}, inr ())
      end
  end.

(** [with open(path, 'rb') as f: f.read()] *)
Definition read_file (path : string) : IO bytes := λ w,
  match filesystem w !! path with
  | None => (w, inl (Raised FileNotFoundError))
  | Some Directory => (w, inl IsADirectoryError)
  | Some (RegularFile content) => (w, inr content)
  end.

(** The variables of a new model, with their initial values. *)
Definition initial_variables (shapes : list (list Z)) : list variable :=
  imap (λ i s, {| var_shape := s; var_data := initial_values i s |}) shapes.

(** [save(folder)] *)
Definition save (self : instance) (folder : string) : IO () :=
  present ← os_path_exists folder;
  (if present : bool then mret () else os_makedirs folder);;
  let params :=
    {| p_input_shape := input_shape (this self);
       p_filters := filters (this self);
       p_kernels := kernels (this self);
       p_strides := strides (this self);
       p_latent_space_shape := latent_space_shape (this self) |} in
  let path := os_path_join folder "params.pkl" in
  write_file folder path (pickle_dump params);;
  let path := os_path_join folder "weights.h5" in
  mdl ← build (getattr (model (this self)));
  write_file folder path (h5_dump (save_weights mdl (variables self))).

(** [VariationalAutoencoder(input_shape, filters, kernels, strides,
    latent_space_shape)] as seen by a caller: the instance and the freshly
    initialized variables of its model. *)
Definition new (input_shape : list Z) (filters : list Z)
    (kernels strides : list int_or_pair) (latent_space_shape : Z) : IO instance :=
  vae ← build (init input_shape filters kernels strides latent_space_shape);
  mdl ← build (getattr (model vae));
  mret {| this := vae; variables := initial_variables (model_weight_shapes mdl) |}.

(** [load(folder)] *)
Definition load (folder : string) : IO instance :=
  let path := os_path_join folder "params.pkl" in
  content ← read_file path;
  params ← (match pickle_load content with
            | Some p => mret p
            | None => io_raise UnpicklingError
            end);
  vae ← new (p_input_shape params) (p_filters params) (p_kernels params)
           (p_strides params) (p_latent_space_shape params);
  mdl ← build (getattr (model (this vae)));
  let path := os_path_join folder "weights.h5" in
  content ← read_file path;
  snap ← (match h5_load content with
          | Some s => mret s
          | None => io_raise OSError
          end);
  match load_weights mdl snap with
  | Some vars => mret {| this := this vae; variables := vars |}
  | None => io_raise (Raised ValueError)
  end.

End Persistence.

(** An instance is consistent when it is what the constructor returns for
    its own configuration and its variables have the shapes that its model
    expects; training changes the values of the variables only. *)
Definition consistent (self : instance) : Prop :=
  returns (init (input_shape (this self)) (filters (this self)) (kernels (this self))
             (strides (this self)) (latent_space_shape (this self))) (this self) ∧
  ∃ mdl, model (this self) = Some mdl ∧
         var_shape <$> variables self = model_weight_shapes mdl.

(** The parameter list of an instance. *)
Definition params_of (self : VariationalAutoencoder) : params :=
  {| p_input_shape := input_shape self;
     p_filters := filters self;
     p_kernels := kernels self;
     p_strides := strides self;
     p_latent_space_shape := latent_space_shape self |}.

(** A file content that holds the stored value itself, with the two
    serializers that go with it. *)
Definition stored_value : Type := params + snapshot.

Definition stored_pickle_load (content : stored_value) : option params :=
  match content with
  | inl p => Some p
  | inr _ => None
  end.

Definition stored_h5_load (content : stored_value) : option snapshot :=
  match content with
  | inl _ => None
  | inr s => Some s
  end.

(** A computation that leaves every file as it is, whatever its outcome. *)
Definition keeps_files {bytes A : Type} (c : IO bytes A) : Prop :=
  ∀ w, filesystem bytes (c w).1 = filesystem bytes w.

(** The instance of the end-to-end scenario, with empty initial values, and
    an empty world. *)
Definition scenario_instance : instance :=
  match scenario.2 with
  | inr vae =>
      {| this := vae;
         variables :=
           initial_variables (λ _ _, [])
             (default [] (model_weight_shapes <$> model vae)) |}
  | inl _ => {| this := fresh_instance [] [] [] [] 0; variables := [] |}
  end.

Definition empty_world : world stored_value :=
  {| filesystem := ∅; constructed := [] |}.

(** A world whose folder ["checkpoint"] holds only a parameter file, with
    two filters and one kernel, and one with the parameters of the
    scenario. *)
Definition world_with_params (p : params) : world stored_value :=
  {| filesystem := {[ "checkpoint" := Directory stored_value;
                      "checkpoint/params.pkl" := RegularFile stored_value (inl p) ]};
     constructed := [] |}.

Definition mismatched_params : params :=
  {| p_input_shape := [28; 28; 1]; p_filters := [32; 64]; p_kernels := [IntV 3];
     p_strides := [IntV 1; IntV 2]; p_latent_space_shape := 2 |}.

(** A step that logs exactly the layers it adds to the graph. *)
Definition logs_its_layers (x : KTensor) (c : M KTensor) : Prop :=
  ∀ y, returns c y → node_layer <$> history y = (node_layer <$> history x) ++ c.1.

(** * Properties *)





Lemma wp_conj {A} (c : M A) (P Q : A → Prop) :
  wp c P → wp c Q → wp c (λ a, P a ∧ Q a).
Proof.
  unfold wp. destruct (c.2) as [e|a]; done.
Qed.






(** ** Arithmetic of same-padded shapes *)















(** ** Shapes of the convolution blocks *)





(** ** The two loops *)





(** ** The three build steps *)

Lemma dense_on_vector u nm p : compute_output_shape (Dense u nm) [p] = Some [u].
Proof. done. Qed.

Lemma reshape_after_dense sbl :
  compute_output_shape (Reshape sbl) [np_prod sbl] = Some sbl.
Proof.
  unfold compute_output_shape. rewrite decide_True; [done|].
  unfold np_prod. simpl. lia.
Qed.






Lemma apply_layer_eq ly x out :
  compute_output_shape ly (int_shape x) = Some out →
  apply_layer ly x =
    ([ly], inr {| int_shape := out;
                  history := history x ++ [{| node_layer := ly;
                                              node_input_shape := int_shape x |}] |}).
Proof. intros H. unfold apply_layer. by rewrite H. Qed.

Lemma bind_returns {A B} (c : M A) (f : A → M B) log a :
  c = (log, inr a) → c ≫= f = (log ++ (f a).1, (f a).2).
Proof. intros ->. unfold mbind, M_bind. by destruct (f a). Qed.

Lemma bind_raises {A B} (c : M A) (f : A → M B) log e :
  c = (log, inl e) → c ≫= f = (log, inl e).
Proof. by intros ->. Qed.

Lemma build_decoder_no_layers self sbl :
  n_conv_layers self = 0%nat → kernels self = [] → shape_before_ls self = Some sbl →
  build_decoder self =
    ([InputLayer [latent_space_shape self] "decoder_input";
      Dense (np_prod sbl) "decoder_dense"; Reshape sbl], inl IndexError).
Proof.
  intros Hn Hk Hsbl. unfold build_decoder.
  erewrite bind_returns by reflexivity. rewrite Hsbl.
  erewrite (bind_returns (getattr _)) by reflexivity.
  erewrite (bind_returns (apply_layer _ _)) by (by apply apply_layer_eq, dense_on_vector).
  erewrite (bind_returns (apply_layer _ _)) by (by apply apply_layer_eq, reshape_after_dense).
  rewrite Hn. erewrite (bind_returns (for_each _ _ _)) by reflexivity.
  rewrite Hk. reflexivity.
Qed.

(** ** Normal returns *)

Lemma returns_bind {A B} (c : M A) (f : A → M B) b :
  returns (c ≫= f) b → ∃ a, returns c a ∧ returns (f a) b.
Proof.
  unfold returns, mbind, M_bind. destruct c as [log [e|a]]; simpl; [done|].
  destruct (f a) as [log' r] eqn:Hfa. simpl. intros ->. exists a. by rewrite Hfa.
Qed.

Lemma returns_ret {A} (a b : A) : returns (mret a) b → a = b.
Proof. by intros [= ->]. Qed.

Ltac inv_returns :=
  repeat match goal with
         | H : returns (_ ≫= _) _ |- _ =>
             let a := fresh "a" in
             let Ha := fresh "Ha" in
             apply returns_bind in H as (a & Ha & H)
         | H : returns (mret _) _ |- _ => apply returns_ret in H
         end.





(** ** Construction-time validation *)

(** C6: when the number of kernels or of strides differs from the number of
    filters, construction raises the assertion error of the length check (the
    configuration error of the specification) with an empty construction
    log, that is before any layer is constructed, and returns no instance. *)
Theorem init_rejects_mismatched_lengths input_shape fs ks ss latent :
  length fs ≠ length ks ∨ length fs ≠ length ss →
  ∃ msg, init input_shape fs ks ss latent = ([], inl (AssertionError msg)).
Proof.
  intros Hne. unfold init, assert.
  destruct (decide (length ks = length fs)) as [Hk|Hk].
  - rewrite (bool_decide_eq_true_2 _ Hk).
    rewrite bool_decide_eq_false_2 by (destruct Hne; congruence).
    by eexists.
  - rewrite (bool_decide_eq_false_2 _ Hk). by eexists.
Qed.

Lemma init_rejects_mismatched_lengths_witness :
  ∃ msg, init [28; 28; 1] [32; 64] [IntV 3; IntV 3] [IntV 1] 2 =
           ([], inl (AssertionError msg)).
Proof.
  apply (init_rejects_mismatched_lengths [28; 28; 1] [32; 64] [IntV 3; IntV 3] [IntV 1] 2).
  right. simpl. lia.
Defined.



(** ** Shapes of the built models *)




(** C8, as stated, fails: the spatial dimensions of [shape_before_ls] in
    the scenario are not (28, 14). *)
Lemma scenario_counterexample :
  ¬ wp scenario (λ vae,
      ∃ sbl dec, shape_before_ls vae = Some sbl ∧ spatial_dims sbl = [28; 14] ∧
        decoder vae = Some dec ∧ int_shape (model_output dec) = [28; 28; 1]).
Proof.
  unfold wp. vm_compute. intros (sbl & dec & [= <-] & [=] & _).
Qed.

(** C8 (amended): in the scenario [shape_before_ls] is (14, 14, 64), so its
    spatial dimensions are (14, 14): the stride-1 layer maps 28x28 to
    28x28 = ceil(28/1) and the stride-2 layer maps it to 14x14 =
    ceil(28/2) on both axes; the decoder's output shape is (28, 28, 1). *)
Theorem scenario_shapes :
  wp scenario (λ vae,
    ∃ enc dec,
      shape_before_ls vae = Some [14; 14; 64] ∧
      spatial_dims [14; 14; 64] = [14; 14] ∧
      encoder vae = Some enc ∧
      compute_output_shape (Conv2D 32 (IntV 3) (IntV 1) PadSame "encoder_conv_layer_1")
        [28; 28; 1] = Some [ceil_div 28 1; ceil_div 28 1; 32] ∧
      compute_output_shape (Conv2D 64 (IntV 3) (IntV 2) PadSame "encoder_conv_layer_2")
        [28; 28; 32] = Some [ceil_div 28 2; ceil_div 28 2; 64] ∧
      (ceil_div 28 1 = 28 ∧ ceil_div 28 2 = 14) ∧
      (node_layer <$> model_layers enc) !! 1%nat =
        Some (Conv2D 32 (IntV 3) (IntV 1) PadSame "encoder_conv_layer_1") ∧
      (node_layer <$> model_layers enc) !! 4%nat =
        Some (Conv2D 64 (IntV 3) (IntV 2) PadSame "encoder_conv_layer_2") ∧
      (node_input_shape <$> model_layers enc) !! 4%nat = Some [28; 28; 32] ∧
      decoder vae = Some dec ∧
      int_shape (model_output dec) = [28; 28; 1]).
Proof.
  unfold wp. vm_compute. eexists _, _. repeat split.
Qed.

(** ** Sums and element-wise operations *)

Lemma sum_upto_S n f : sum_upto (S n) f = (f 0%nat + sum_upto n (f ∘ S))%R.
Proof.
  unfold sum_upto. simpl. by rewrite <- fmap_S_seq, <- list_fmap_compose.
Qed.

Lemma sum_upto_ext n f g :
  (∀ i, (i < n)%nat → f i = g i) → sum_upto n f = sum_upto n g.
Proof.
  revert f g. induction n as [|n IH]; intros f g Hfg; [done|].
  rewrite !sum_upto_S, Hfg by lia. f_equal. apply IH. intros i Hi. apply Hfg. lia.
Qed.

Lemma sum_upto_zero n f : (∀ i, (i < n)%nat → f i = 0%R) → sum_upto n f = 0%R.
Proof.
  revert f. induction n as [|n IH]; intros f Hf; [done|].
  rewrite sum_upto_S, Hf by lia. rewrite IH; [lra|].
  intros i Hi. apply Hf. lia.
Qed.

Lemma Rsum_fmap_lookup {A} (g : A → R) (xs : list A) (d : A) :
  Rsum (g <$> xs) = sum_upto (length xs) (λ i, g (default d (xs !! i))).
Proof.
  induction xs as [|x xs IH]; [done|].
  rewrite fmap_cons. change (Rsum (g x :: (g <$> xs))) with (g x + Rsum (g <$> xs))%R.
  rewrite IH. change (length (x :: xs)) with (S (length xs)). by rewrite sum_upto_S.
Qed.

Lemma Rsum_at1 (xs : list R) : Rsum xs = sum_upto (length xs) (at1 xs).
Proof.
  rewrite <- (list_fmap_id xs) at 1. apply (Rsum_fmap_lookup id xs 0%R).
Qed.



Lemma at1_fmap f (xs : list R) j :
  (j < length xs)%nat → at1 (f <$> xs) j = f (at1 xs j).
Proof.
  intros Hj. unfold at1. rewrite list_lookup_fmap.
  by destruct (lookup_lt_is_Some_2 xs j Hj) as [x ->].
Qed.

Lemma at1_zip_with f (xs ys : list R) j :
  (j < length xs)%nat → (j < length ys)%nat →
  at1 (zip_with f xs ys) j = f (at1 xs j) (at1 ys j).
Proof.
  intros Hx Hy. unfold at1. rewrite lookup_zip_with.
  destruct (lookup_lt_is_Some_2 xs j Hx) as [x ->].
  by destruct (lookup_lt_is_Some_2 ys j Hy) as [y ->].
Qed.

Lemma has_shape2_lookup shape (t : tensor2) i :
  has_shape2 shape t → (i < shape.1)%nat →
  ∃ row, t !! i = Some row ∧ length row = shape.2.
Proof.
  intros [Hlen Hrows] Hi.
  destruct (lookup_lt_is_Some_2 t i) as [row Hrow]; [lia|].
  exists row. split; [done|]. by apply (Forall_lookup_1 _ _ _ _ Hrows Hrow).
Qed.

Lemma has_shape2_map2 shape f (t : tensor2) :
  has_shape2 shape t → has_shape2 shape (map2 f t).
Proof.
  intros [Hlen Hrows]. unfold map2. split; [by rewrite length_fmap|].
  apply Forall_fmap. eapply Forall_impl; [done|].
  intros row Hrow. simpl. by rewrite length_fmap.
Qed.

Lemma has_shape2_zip2 shape f (a b : tensor2) :
  has_shape2 shape a → has_shape2 shape b → has_shape2 shape (zip2 f a b).
Proof.
  intros [Hla Ha] [Hlb Hb]. unfold zip2. split; [rewrite length_zip_with; lia|].
  apply Forall_lookup. intros i row Hrow.
  unfold zip2 in Hrow. rewrite lookup_zip_with in Hrow.
  destruct (a !! i) as [ra|] eqn:Hra; [|done]. destruct (b !! i) as [rb|] eqn:Hrb; [|done].
  simpl in Hrow. injection Hrow as <-. rewrite length_zip_with.
  rewrite (Forall_lookup_1 _ _ _ _ Ha Hra), (Forall_lookup_1 _ _ _ _ Hb Hrb). lia.
Qed.

Lemma at2_map2 shape f (t : tensor2) i j :
  has_shape2 shape t → (i < shape.1)%nat → (j < shape.2)%nat →
  at2 (map2 f t) i j = f (at2 t i j).
Proof.
  intros Ht Hi Hj. destruct (has_shape2_lookup _ _ _ Ht Hi) as (row & Hrow & Hlen).
  unfold at2, map2. rewrite list_lookup_fmap, Hrow. simpl.
  apply at1_fmap. lia.
Qed.

Lemma at2_zip2 shape f (a b : tensor2) i j :
  has_shape2 shape a → has_shape2 shape b → (i < shape.1)%nat → (j < shape.2)%nat →
  at2 (zip2 f a b) i j = f (at2 a i j) (at2 b i j).
Proof.
  intros Ha Hb Hi Hj.
  destruct (has_shape2_lookup _ _ _ Ha Hi) as (ra & Hra & Hla).
  destruct (has_shape2_lookup _ _ _ Hb Hi) as (rb & Hrb & Hlb).
  unfold at2, zip2. rewrite lookup_zip_with, Hra, Hrb. simpl.
  apply at1_zip_with; lia.
Qed.

(** Two tensors of the same shape with the same entries are equal. *)
Lemma list_eq_at1 (xs ys : list R) :
  length xs = length ys → (∀ j, (j < length xs)%nat → at1 xs j = at1 ys j) → xs = ys.
Proof.
  intros Hlen Hat. apply list_eq. intros j. unfold at1 in Hat.
  destruct (decide (j < length xs)%nat) as [Hj|Hj].
  - specialize (Hat j Hj).
    destruct (lookup_lt_is_Some_2 xs j Hj) as [x Hx].
    destruct (lookup_lt_is_Some_2 ys j ltac:(lia)) as [y Hy].
    rewrite Hx, Hy in *. simpl in Hat. by subst.
  - by rewrite !lookup_ge_None_2 by lia.
Qed.

Lemma tensor2_eq shape (a b : tensor2) :
  has_shape2 shape a → has_shape2 shape b →
  (∀ i j, (i < shape.1)%nat → (j < shape.2)%nat → at2 a i j = at2 b i j) → a = b.
Proof.
  intros Ha Hb Hat. apply list_eq. intros i.
  destruct (decide (i < shape.1)%nat) as [Hi|Hi].
  - destruct (has_shape2_lookup _ _ _ Ha Hi) as (ra & Hra & Hla).
    destruct (has_shape2_lookup _ _ _ Hb Hi) as (rb & Hrb & Hlb).
    rewrite Hra, Hrb. f_equal. apply list_eq_at1; [lia|].
    intros j Hj. specialize (Hat i j Hi ltac:(lia)).
    unfold at2 in Hat. by rewrite Hra, Hrb in Hat.
  - destruct Ha as [Hla _], Hb as [Hlb _]. by rewrite !lookup_ge_None_2 by lia.
Qed.

Lemma has_shape2_zeros2 shape : has_shape2 shape (zeros2 shape).
Proof.
  split; [apply length_replicate|].
  apply Forall_replicate. apply length_replicate.
Qed.

Lemma at2_zeros2 shape i j :
  (i < shape.1)%nat → (j < shape.2)%nat → at2 (zeros2 shape) i j = 0%R.
Proof.
  intros Hi Hj. unfold at2, at1, zeros2.
  rewrite lookup_replicate_2 by done. simpl. by rewrite lookup_replicate_2.
Qed.

(** ** The sampling layer *)

(** C2: with [eps] the draw of the shape of [mu], the sampling layer returns
    a tensor of that shape whose entries are
    [mu + exp(log_sigma2 / 2) * eps]; for [mu = 0] and [log_sigma2 = 0] the
    result is [eps] itself. *)
Theorem sampling_layer_formula (random_normal : nat * nat → tensor2) (mu sigma : tensor2) :
  let shape := K_shape mu in
  let eps := random_normal shape in
  let z := normal_distribution random_normal mu (mu, sigma) in
  has_shape2 shape mu → has_shape2 shape sigma → has_shape2 shape eps →
  has_shape2 shape z ∧
  (∀ i j, (i < shape.1)%nat → (j < shape.2)%nat →
     at2 z i j = (at2 mu i j + exp (at2 sigma i j / 2) * at2 eps i j)%R) ∧
  (mu = zeros2 shape → sigma = zeros2 shape → z = eps).
Proof.
  intros shape eps z Hmu Hsigma Heps.
  assert (has_shape2 shape z) as Hz.
  { unfold z, normal_distribution.
    auto using has_shape2_zip2, has_shape2_map2. }
  assert (∀ i j, (i < shape.1)%nat → (j < shape.2)%nat →
     at2 z i j = (at2 mu i j + exp (at2 sigma i j / 2) * at2 eps i j)%R) as Hentry.
  { intros i j Hi Hj. unfold z, normal_distribution. fold shape. fold eps.
    rewrite (at2_zip2 shape); auto using has_shape2_zip2, has_shape2_map2.
    rewrite (at2_zip2 shape); auto using has_shape2_map2.
    rewrite (at2_map2 shape); auto using has_shape2_map2.
    by rewrite (at2_map2 shape). }
  split; [done|]. split; [done|].
  intros Hmu0 Hsigma0. apply (tensor2_eq shape); [done..|].
  intros i j Hi Hj. rewrite Hentry by done.
  rewrite Hmu0 at 1. rewrite Hsigma0 at 1. rewrite !at2_zeros2 by done.
  replace (0 / 2)%R with 0%R by lra. rewrite exp_0. lra.
Qed.

Lemma sampling_layer_formula_witness :
  normal_distribution (λ _, [[2; 3]]%R) [[0; 0]]%R ([[0; 0]]%R, [[0; 0]]%R) = [[2; 3]]%R.
Proof.
  apply (sampling_layer_formula (λ _, [[2; 3]]%R) [[0; 0]]%R [[0; 0]]%R).
  - split; [reflexivity | repeat constructor].
  - split; [reflexivity | repeat constructor].
  - split; [reflexivity | repeat constructor].
  - reflexivity.
  - reflexivity.
Defined.

(** ** The divergence loss *)

(** C3: the divergence loss has one entry per sample, equal to
    [-0.5 * sum_j (1 + log_sigma2 - mu^2 - exp(log_sigma2))] over the latent
    dimensions; it does not depend on [y_target] and [y_predicted]; and it is
    0 for every sample when [mu = 0] and [log_sigma2 = 0]. *)
Theorem kl_loss_formula (mu sigma : tensor2) (shape : nat * nat)
    (y_target y_predicted y_target' y_predicted' : tensor4) :
  has_shape2 shape mu → has_shape2 shape sigma →
  length (compute_kl_loss mu sigma y_target y_predicted) = shape.1 ∧
  (∀ i, (i < shape.1)%nat →
     compute_kl_loss mu sigma y_target y_predicted !! i =
       Some (-0.5 * sum_upto shape.2 (λ j,
               1 + at2 sigma i j - at2 mu i j * at2 mu i j - exp (at2 sigma i j)))%R) ∧
  compute_kl_loss mu sigma y_target y_predicted =
    compute_kl_loss mu sigma y_target' y_predicted' ∧
  compute_kl_loss (zeros2 shape) (zeros2 shape) y_target y_predicted =
    replicate shape.1 0%R.
Proof.
  assert (∀ m s : tensor2, has_shape2 shape m → has_shape2 shape s →
    ∀ i, (i < shape.1)%nat →
     compute_kl_loss m s y_target y_predicted !! i =
       Some (-0.5 * sum_upto shape.2 (λ j,
               1 + at2 s i j - at2 m i j * at2 m i j - exp (at2 s i j)))%R) as Hentry.
  { intros m s Hm Hs i Hi. unfold compute_kl_loss, K_sum_axis1.
    set (t := zip2 Rminus _ _).
    assert (has_shape2 shape t) as Ht
      by (unfold t; auto using has_shape2_zip2, has_shape2_map2).
    destruct (has_shape2_lookup _ _ _ Ht Hi) as (row & Hrow & Hlen).
    rewrite !list_lookup_fmap, Hrow. simpl. f_equal. f_equal.
    rewrite Rsum_at1, Hlen. apply sum_upto_ext. intros j Hj.
    assert (at1 row j = at2 t i j) as -> by (unfold at2; by rewrite Hrow).
    unfold t.
    rewrite (at2_zip2 shape); auto using has_shape2_zip2, has_shape2_map2.
    rewrite (at2_zip2 shape); auto using has_shape2_map2.
    by rewrite !(at2_map2 shape). }
  assert (∀ m s : tensor2, has_shape2 shape m → has_shape2 shape s →
    length (compute_kl_loss m s y_target y_predicted) = shape.1) as Hlength.
  { intros m s Hm Hs. unfold compute_kl_loss, K_sum_axis1.
    rewrite !length_fmap.
    apply (has_shape2_zip2 shape); auto using has_shape2_zip2, has_shape2_map2. }
  intros Hmu Hsigma.
  split; [by apply Hlength|]. split; [by apply Hentry|]. split; [done|].
  apply list_eq. intros i. destruct (decide (i < shape.1)%nat) as [Hi|Hi].
  - rewrite Hentry by auto using has_shape2_zeros2.
    rewrite lookup_replicate_2 by done. f_equal.
    rewrite sum_upto_zero; [lra|].
    intros j Hj. rewrite !at2_zeros2 by done. rewrite exp_0. lra.
  - rewrite (proj1 (lookup_replicate_None _ _ _)) by lia.
    apply lookup_ge_None_2.
    rewrite Hlength by auto using has_shape2_zeros2. lia.
Qed.

Lemma kl_loss_formula_witness :
  compute_kl_loss [[0; 0]]%R [[0; 0]]%R [] [] = [0%R].
Proof.
  apply (kl_loss_formula [[0; 0]]%R [[0; 0]]%R (1, 2)%nat [] [] [] []).
  - split; [reflexivity | repeat constructor].
  - split; [reflexivity | repeat constructor].
Defined.

(** ** The reconstruction loss *)












(** ** The combined loss *)

(** C5: the loss registered by [compile] is the combined loss, whatever the
    learning rate; its entry for a sample is
    [AE_LOSS_WEIGHT * reconstruction + divergence] of that sample, with
    [AE_LOSS_WEIGHT] the constant of the configuration module. *)
Theorem combined_loss_formula (AE_LOSS_WEIGHT : R) (mu sigma : tensor2)
    (y_target y_predicted : tensor4) (learning_rate : option R) (b : nat) :
  length y_target = b → length y_predicted = b → length mu = b → length sigma = b →
  let combined := loss (compile AE_LOSS_WEIGHT mu sigma learning_rate) in
  combined = compute_combined_loss AE_LOSS_WEIGHT mu sigma ∧
  length (combined y_target y_predicted) = b ∧
  (∀ i, (i < b)%nat →
     ∃ r d, compute_loss y_target y_predicted !! i = Some r ∧
            compute_kl_loss mu sigma y_target y_predicted !! i = Some d ∧
            combined y_target y_predicted !! i = Some (AE_LOSS_WEIGHT * r + d)%R).
Proof.
  intros Hyt Hyp Hmu Hsigma combined.
  assert (length (compute_loss y_target y_predicted) = b) as Hlr.
  { unfold compute_loss, K_mean_axis123, map4, zip4.
    rewrite !length_fmap, length_zip_with. lia. }
  assert (length (compute_kl_loss mu sigma y_target y_predicted) = b) as Hld.
  { unfold compute_kl_loss, K_sum_axis1, zip2, map2.
    rewrite !length_fmap, !length_zip_with, !length_fmap. lia. }
  split; [done|]. split.
  - unfold combined. simpl. unfold compute_combined_loss.
    rewrite length_zip_with, length_fmap. lia.
  - intros i Hi.
    destruct (lookup_lt_is_Some_2 (compute_loss y_target y_predicted) i) as [r Hr]; [lia|].
    destruct (lookup_lt_is_Some_2 (compute_kl_loss mu sigma y_target y_predicted) i)
      as [d Hd]; [lia|].
    exists r, d. split; [done|]. split; [done|].
    unfold combined. simpl. unfold compute_combined_loss.
    by rewrite lookup_zip_with, list_lookup_fmap, Hr, Hd.
Qed.

Lemma combined_loss_formula_witness :
  loss (compile 1000 [[0; 0]]%R [[0; 0]]%R None) =
    compute_combined_loss 1000 [[0; 0]]%R [[0; 0]]%R.
Proof.
  apply (combined_loss_formula 1000 [[0; 0]]%R [[0; 0]]%R
           [[[[1; 2]]]]%R [[[[1; 2]]]]%R None 1); reflexivity.
Defined.

(** ** The layers of the decoder *)







(** * Further properties of the construction *)



Lemma returns_getattr {A} (o : option A) a : returns (getattr o) a → o = Some a.
Proof. destruct o; [by intros [= ->]|done]. Qed.

Lemma returns_getitem {A} (xs : list A) i a : returns (getitem xs i) a → xs !! i = Some a.
Proof. unfold getitem. destruct (xs !! i); [by intros [= ->]|done]. Qed.

Lemma returns_Input shape name x :
  returns (Input shape name) x →
  x = {| int_shape := shape;
         history := [{| node_layer := InputLayer shape name; node_input_shape := shape |}] |}.
Proof. by intros [= <-]. Qed.

Lemma returns_apply_layer ly x y :
  returns (apply_layer ly x) y →
  ∃ out, compute_output_shape ly (int_shape x) = Some out ∧
    y = {| int_shape := out;
           history := history x ++ [{| node_layer := ly; node_input_shape := int_shape x |}] |}.
Proof.
  unfold apply_layer. intros H. apply returns_bind in H as ([] & _ & H).
  destruct (compute_output_shape ly (int_shape x)) as [out|]; [|done].
  apply returns_ret in H. eauto.
Qed.

Lemma returns_call_model m x y :
  returns (call_model m x) y →
  int_shape x = int_shape (model_input m) ∧
  y = {| int_shape := int_shape (model_output m);
         history := history x ++
           [{| node_layer := SubModel (model_name m) (model_weight_shapes m);
               node_input_shape := int_shape x |}] |}.
Proof.
  unfold call_model. destruct (decide _) as [Heq|]; [|done].
  intros H. apply returns_ret in H. done.
Qed.

(** What the three build steps assign. *)
Lemma build_encoder_inv self self' :
  returns (build_encoder self) self' →
  ∃ sbl m s z,
    let inp := {| int_shape := input_shape self;
                  history := [{| node_layer := InputLayer (input_shape self) "encoder_input";
                                 node_input_shape := input_shape self |}] |} in
    self' = set_encoder_attrs self inp sbl m s
              {| model_name := Some "encoder"; model_input := inp; model_output := z |} ∧
    int_shape m = [latent_space_shape self] ∧ int_shape s = [latent_space_shape self] ∧
    int_shape z = [latent_space_shape self].
Proof.
  unfold build_encoder. intros H. inv_returns.
  apply returns_Input in Ha. subst a.
  apply returns_apply_layer in Ha1 as (o1 & Ho1 & ->).
  apply returns_apply_layer in Ha2 as (o2 & Ho2 & ->).
  apply returns_apply_layer in Ha3 as (o3 & Ho3 & ->).
  apply returns_apply_layer in Ha4 as (o4 & Ho4 & ->).
  simpl in *. injection Ho1 as <-. simpl in Ho2, Ho3.
  injection Ho2 as <-. injection Ho3 as <-. injection Ho4 as <-. subst self'.
  eexists _, _, _, _. split; [reflexivity|]. done.
Qed.

Lemma build_decoder_inv self self' :
  returns (build_decoder self) self' →
  ∃ x y, self' = set_decoder self
     {| model_name := Some "decoder";
        model_input := {| int_shape := [latent_space_shape self];
                          history := [{| node_layer := InputLayer [latent_space_shape self] "decoder_input";
                                         node_input_shape := [latent_space_shape self] |}] |};
        model_output := {| int_shape := int_shape x;
                           history := history y ++
                             [{| node_layer := Activation "sigmoid" "sigmoid_layer";
                                 node_input_shape := int_shape x |}] |} |}.
Proof.
  unfold build_decoder. intros H. inv_returns.
  apply returns_Input in Ha. subst a.
  match goal with
  | Hact : returns (apply_layer (Activation _ _) ?x) _ |- _ =>
      apply returns_apply_layer in Hact as (o & Ho & ->); exists x, x
  end.
  simpl in Ho. by simplify_eq.
Qed.

Lemma build_vae_inv self self' :
  returns (build_vae self) self' →
  ∃ enc dec inp,
    encoder self = Some enc ∧ decoder self = Some dec ∧ input self = Some inp ∧
    int_shape inp = int_shape (model_input enc) ∧
    int_shape (model_output enc) = int_shape (model_input dec) ∧
    self' = set_model self
      {| model_name := None; model_input := inp;
         model_output :=
           {| int_shape := int_shape (model_output dec);
              history := history inp ++
                [{| node_layer := SubModel (model_name enc) (model_weight_shapes enc);
                    node_input_shape := int_shape inp |};
                 {| node_layer := SubModel (model_name dec) (model_weight_shapes dec);
                    node_input_shape := int_shape (model_output enc) |}] |} |}.
Proof.
  unfold build_vae. intros H. inv_returns.
  apply returns_getattr in Ha, Ha0, Ha1.
  apply returns_call_model in Ha2 as (Hin & ->).
  apply returns_call_model in Ha3 as (Hmid & ->). simpl in *.
  exists a, a0, a1. repeat (split; [done|]).
  subst self'. by rewrite <- (assoc_L (++)).
Qed.

Lemma init_inv input_shape fs ks ss latent vae :
  returns (init input_shape fs ks ss latent) vae →
  length ks = length fs ∧ length ss = length fs ∧
  ∃ self1 self2,
    returns (build_encoder (fresh_instance input_shape fs ks ss latent)) self1 ∧
    returns (build_decoder self1) self2 ∧
    returns (build_vae self2) vae.
Proof.
  unfold init, build_model, assert. intros H.
  destruct (bool_decide (length ks = length fs)) eqn:Hk; [|done].
  apply returns_bind in H as ([] & _ & H).
  destruct (bool_decide (length ss = length fs)) eqn:Hs; [|done].
  apply returns_bind in H as ([] & _ & H).
  apply bool_decide_eq_true_1 in Hk, Hs.
  inv_returns. split; [done|]. split; [done|]. by exists a, a0.
Qed.

(** ** The layers of the encoder *)





Lemma init_without_layers shape latent :
  (init shape [] [] [] latent).2 = inl IndexError.
Proof.
  unfold init, build_model.
  erewrite (bind_returns (assert _ _)) by reflexivity.
  erewrite (bind_returns (assert _ _)) by reflexivity.
  erewrite (bind_returns (build_encoder _)) by reflexivity.
  erewrite (bind_raises (build_decoder _)) by (by apply build_decoder_no_layers).
  reflexivity.
Qed.

Lemma init_returns_nonempty shape fs ks ss latent vae :
  returns (init shape fs ks ss latent) vae → (1 ≤ length fs)%nat.
Proof.
  intros Hret. destruct fs as [|f fs]; [|simpl; lia].
  exfalso. unfold returns in Hret.
  destruct ks as [|k ks]; [|done]. destruct ss as [|s ss]; [|done].
  by rewrite init_without_layers in Hret.
Qed.

(** ** The constructor and the composite model *)

(** X2: whenever construction returns, the instance holds the five
    arguments unchanged, [n_conv_layers] is the number of filters, the three
    sequences have the same length and there is at least one layer. *)
Theorem init_stores_configuration shape fs ks ss latent vae :
  returns (init shape fs ks ss latent) vae →
  input_shape vae = shape ∧ filters vae = fs ∧
  kernels vae = ks ∧ strides vae = ss ∧ latent_space_shape vae = latent ∧
  n_conv_layers vae = length fs ∧
  length ks = length fs ∧ length ss = length fs ∧ (1 ≤ length fs)%nat.
Proof.
  intros Hvae.
  pose proof (init_returns_nonempty _ _ _ _ _ _ Hvae) as Hn.
  apply init_inv in Hvae as (Hk & Hs & self1 & self2 & H1 & H2 & H3).
  apply build_encoder_inv in H1 as (sbl & m & s & z & -> & _).
  apply build_decoder_inv in H2 as (x & y & ->).
  apply build_vae_inv in H3 as (enc & dec & inp & _ & _ & _ & _ & _ & ->).
  done.
Qed.

Lemma init_stores_configuration_witness :
  ∃ vae, returns scenario vae ∧ filters vae = [32; 64] ∧ n_conv_layers vae = 2%nat.
Proof.
  assert (∃ vae, returns scenario vae) as [vae Hvae]
    by (eexists; unfold returns; vm_compute; reflexivity).
  exists vae. split; [exact Hvae|].
  destruct (init_stores_configuration _ _ _ _ _ _ Hvae) as (_ & Hf & _ & _ & _ & Hn & _).
  split; [exact Hf | exact Hn].
Defined.

(** X3: whenever construction returns, the composite model is the encoder
    followed by the decoder on the encoder's input: its layers are the input
    layer and the two sub-models ["encoder"] and ["decoder"], it maps the
    input shape to the decoder's output shape, and its variables are those of
    the encoder followed by those of the decoder (it owns none of its own). *)
Theorem composite_model input_shape fs ks ss latent vae :
  returns (init input_shape fs ks ss latent) vae →
  ∃ enc dec mdl,
    encoder vae = Some enc ∧ decoder vae = Some dec ∧ model vae = Some mdl ∧
    model_name enc = Some "encoder" ∧ model_name dec = Some "decoder" ∧
    model_input mdl = model_input enc ∧
    int_shape (model_input mdl) = input_shape ∧
    int_shape (model_output enc) = [latent] ∧
    int_shape (model_input dec) = [latent] ∧
    int_shape (model_output mdl) = int_shape (model_output dec) ∧
    node_layer <$> model_layers mdl =
      [InputLayer input_shape "encoder_input";
       SubModel (Some "encoder") (model_weight_shapes enc);
       SubModel (Some "decoder") (model_weight_shapes dec)] ∧
    model_weight_shapes mdl = model_weight_shapes enc ++ model_weight_shapes dec.
Proof.
  intros Hvae.
  apply init_inv in Hvae as (Hk & Hs & self1 & self2 & H1 & H2 & H3).
  apply build_encoder_inv in H1 as (sbl & m & s & z & -> & _ & _ & Hz).
  apply build_decoder_inv in H2 as (x & y & ->).
  apply build_vae_inv in H3 as (enc & dec & inp & Henc & Hdec & Hinp & _ & _ & ->).
  simpl in *. simplify_eq. eexists _, _, _.
  do 3 (split; [reflexivity|]). simpl.
  repeat (split; [done|]).
  unfold model_weight_shapes at 1, nodes_weight_shapes, model_layers. simpl.
  by rewrite app_nil_r.
Qed.

Lemma composite_model_witness :
  ∃ vae mdl, returns scenario vae ∧ model vae = Some mdl ∧
    int_shape (model_input mdl) = [28; 28; 1].
Proof.
  assert (∃ vae, returns scenario vae) as [vae Hvae]
    by (eexists; unfold returns; vm_compute; reflexivity).
  destruct (composite_model _ _ _ _ _ _ Hvae)
    as (enc & dec & mdl & _ & _ & Hm & _ & _ & _ & Hin & _).
  exists vae, mdl. split; [exact Hvae|]. split; [exact Hm | exact Hin].
Defined.

(** X4: the number of kernels is checked before the number of strides: a
    wrong number of kernels is reported whatever the strides are, a wrong
    number of strides only when the kernels are right; in both cases nothing
    has been constructed. *)
Theorem init_length_checks input_shape fs ks ss latent :
  (length ks ≠ length fs →
     init input_shape fs ks ss latent =
       ([], inl (AssertionError
                   "Number of kernels should be same than number of filters."))) ∧
  (length ks = length fs → length ss ≠ length fs →
     init input_shape fs ks ss latent =
       ([], inl (AssertionError
                   "Number of strides should be same than number of filters."))).
Proof.
  unfold init, assert. split.
  - intros Hk. by rewrite (bool_decide_eq_false_2 _ Hk).
  - intros Hk Hs.
    by rewrite (bool_decide_eq_true_2 _ Hk), (bool_decide_eq_false_2 _ Hs).
Qed.

Lemma init_length_checks_witness :
  init [28; 28; 1] [32; 64] [IntV 3] [] 2 =
    ([], inl (AssertionError "Number of kernels should be same than number of filters.")).
Proof.
  apply (init_length_checks [28; 28; 1] [32; 64] [IntV 3] [] 2). simpl. lia.
Defined.

(** * Further properties of the losses and of the sampling layer *)
















(** ** The divergence is a divergence *)













(** * Properties of saving and loading *)

(** ** Paths *)






(** ** Weights files *)

Lemma nodes_weight_shapes_cons nd nodes :
  nodes_weight_shapes (nd :: nodes) =
    weight_shapes (node_layer nd) (node_input_shape nd) ++ nodes_weight_shapes nodes.
Proof. done. Qed.

Lemma save_weights_nodes_cons nd nodes vars :
  save_weights_nodes (nd :: nodes) vars =
    (layer_name (node_layer nd),
     take (length (weight_shapes (node_layer nd) (node_input_shape nd))) vars) ::
    save_weights_nodes nodes
      (drop (length (weight_shapes (node_layer nd) (node_input_shape nd))) vars).
Proof. done. Qed.

Lemma save_weights_nodes_concat nodes vars :
  length vars = length (nodes_weight_shapes nodes) →
  concat (snd <$> save_weights_nodes nodes vars) = vars.
Proof.
  revert vars. induction nodes as [|nd nodes IH]; intros vars Hlen.
  - by destruct vars.
  - rewrite nodes_weight_shapes_cons, length_app in Hlen.
    rewrite save_weights_nodes_cons, fmap_cons, concat_cons.
    rewrite IH; [apply take_drop|]. rewrite length_drop. lia.
Qed.

Lemma save_weights_nodes_shapes nodes vars :
  var_shape <$> vars = nodes_weight_shapes nodes →
  (λ vs : list variable, var_shape <$> vs) <$> (snd <$> save_weights_nodes nodes vars) =
    (λ nd, weight_shapes (node_layer nd) (node_input_shape nd)) <$> nodes.
Proof.
  revert vars. induction nodes as [|nd nodes IH]; intros vars Hshapes; [done|].
  rewrite nodes_weight_shapes_cons in Hshapes.
  rewrite save_weights_nodes_cons, !fmap_cons. f_equal.
  - cbn [snd]. rewrite fmap_take, Hshapes. by rewrite take_app_length.
  - apply IH. rewrite fmap_drop, Hshapes. by rewrite drop_app_length.
Qed.

Lemma filter_nonempty_fmap {A B} (f : A → B) (ls : list (list A)) :
  (λ l : list A, f <$> l) <$> filter (λ l : list A, l ≠ []) ls =
  filter (λ l : list B, l ≠ []) ((λ l : list A, f <$> l) <$> ls).
Proof.
  induction ls as [|l ls IH]; [done|]. rewrite fmap_cons, !filter_cons.
  destruct l as [|x l]; simpl; [apply IH | f_equal; apply IH].
Qed.

Lemma concat_filter_nonempty {A} (ls : list (list A)) :
  concat (filter (λ l : list A, l ≠ []) ls) = concat ls.
Proof.
  induction ls as [|l ls IH]; [done|]. rewrite filter_cons.
  destruct l as [|x l]; simpl; [apply IH | do 2 f_equal; apply IH].
Qed.

Lemma load_weights_of_saved (m : Model) (vars : list variable) :
  var_shape <$> vars = model_weight_shapes m →
  load_weights m (save_weights m vars) = Some vars.
Proof.
  intros Hshapes. unfold load_weights, save_weights.
  rewrite filter_nonempty_fmap, save_weights_nodes_shapes by done.
  rewrite decide_True by done. f_equal.
  rewrite concat_filter_nonempty. apply save_weights_nodes_concat.
  apply (f_equal length) in Hshapes. by rewrite length_fmap in Hshapes.
Qed.

Lemma save_weights_nodes_names nodes vars :
  fst <$> save_weights_nodes nodes vars = (λ nd, layer_name (node_layer nd)) <$> nodes.
Proof.
  revert vars. induction nodes as [|nd nodes IH]; intros vars; [done|].
  rewrite save_weights_nodes_cons, !fmap_cons. f_equal. apply IH.
Qed.

(** When the variables fit the model, the snapshot written by
    [save_weights] has one entry per layer of the model, in order and under
    the layer's name, it holds every variable exactly once, and
    [load_weights] on the same model accepts it and returns the saved
    values. *)
Theorem load_weights_save_weights (m : Model) (vars : list variable) :
  var_shape <$> vars = model_weight_shapes m →
  fst <$> save_weights m vars = (λ nd, layer_name (node_layer nd)) <$> model_layers m ∧
  concat (snd <$> save_weights m vars) = vars ∧
  load_weights m (save_weights m vars) = Some vars.
Proof.
  intros Hshapes. split; [apply save_weights_nodes_names|]. split.
  - apply save_weights_nodes_concat.
    apply (f_equal length) in Hshapes. by rewrite length_fmap in Hshapes.
  - by apply load_weights_of_saved.
Qed.

(** A snapshot whose values do not have the shapes of the model's
    variables, layer by layer, is rejected; an accepted snapshot gives
    variables whose shapes are those of the model. *)
Theorem load_weights_checks_shapes (m : Model) (snap : snapshot) (vars : list variable) :
  load_weights m snap = Some vars →
  var_shape <$> vars = model_weight_shapes m ∧
  vars = concat (snd <$> snap).
Proof.
  unfold load_weights. destruct (decide _) as [Heq|]; [|done].
  intros [= <-]. split.
  - unfold model_weight_shapes, nodes_weight_shapes.
    rewrite <- (concat_filter_nonempty (_ <$> model_layers m)), <- Heq.
    generalize (filter (λ vs : list variable, vs ≠ []) snap.*2). intros ls.
    induction ls as [|l ls IH]; [done|].
    rewrite fmap_cons, !concat_cons, fmap_app. by rewrite IH.
  - apply concat_filter_nonempty.
Qed.

Lemma load_weights_save_weights_witness :
  let m := {| model_name := None;
              model_input := {| int_shape := [3]; history := [] |};
              model_output :=
                {| int_shape := [2];
                   history := [{| node_layer := Dense 2 "d"; node_input_shape := [3] |}] |} |} in
  let vars := [{| var_shape := [3; 2]; var_data := [] |};
               {| var_shape := [2]; var_data := [] |}] in
  load_weights m (save_weights m vars) = Some vars.
Proof.
  intros m vars. apply (load_weights_save_weights m vars). reflexivity.
Defined.

Lemma load_weights_checks_shapes_witness :
  let m := {| model_name := None;
              model_input := {| int_shape := [3]; history := [] |};
              model_output :=
                {| int_shape := [2];
                   history := [{| node_layer := Dense 2 "d"; node_input_shape := [3] |}] |} |} in
  let vars := [{| var_shape := [3; 2]; var_data := [] |};
               {| var_shape := [2]; var_data := [] |}] in
  var_shape <$> vars = model_weight_shapes m ∧ vars = concat (snd <$> [("d", vars)]).
Proof.
  intros m vars. apply (load_weights_checks_shapes m [("d", vars)] vars). reflexivity.
Defined.

(** ** Runs of [save] and [load] *)

Section PersistenceProperties.

Context {bytes : Type}.
Variable pickle_dump : params → bytes.
Variable pickle_load : bytes → option params.
Variable h5_dump : snapshot → bytes.
Variable h5_load : bytes → option snapshot.
Variable initial_values : nat → list Z → list R.

Hypothesis pickle_round_trip : ∀ p, pickle_load (pickle_dump p) = Some p.
Hypothesis h5_round_trip : ∀ s, h5_load (h5_dump s) = Some s.

Lemma io_bind_ok {A B} (c : IO bytes A) (f : A → IO bytes B) w w' a :
  c w = (w', inr a) → (c ≫= f) w = f a w'.
Proof. intros H. unfold mbind, IO_bind. by rewrite H. Qed.

Lemma io_bind_err {A B} (c : IO bytes A) (f : A → IO bytes B) w w' e :
  c w = (w', inl e) → (c ≫= f) w = (w', inl e).
Proof. intros H. unfold mbind, IO_bind. by rewrite H. Qed.

Lemma world_eta (w : world bytes) :
  {| filesystem := filesystem bytes w; constructed := constructed bytes w |} = w.
Proof. by destruct w. Qed.

Lemma build_returns {A} (c : M A) a (w : world bytes) :
  returns c a →
  build bytes c w =
    ({| filesystem := filesystem bytes w; constructed := constructed bytes w ++ c.1 |}, inr a).
Proof. unfold build, returns. by intros ->. Qed.

Lemma build_getattr {A} (o : option A) a (w : world bytes) :
  o = Some a → build bytes (getattr o) w = (w, inr a).
Proof.
  intros ->. unfold build. simpl. by rewrite app_nil_r, world_eta.
Qed.





Lemma read_file_ok path content (w : world bytes) :
  filesystem bytes w !! path = Some (RegularFile bytes content) →
  read_file bytes path w = (w, inr content).
Proof. intros H. unfold read_file. by rewrite H. Qed.

Lemma io_bind_inv {A B} (c : IO bytes A) (f : A → IO bytes B) w w' b :
  (c ≫= f) w = (w', inr b) → ∃ w1 a, c w = (w1, inr a) ∧ f a w1 = (w', inr b).
Proof.
  unfold mbind, IO_bind. destruct (c w) as [w1 [e|a]]; [done|]. eauto.
Qed.

Lemma build_inv {A} (c : M A) (w w' : world bytes) a :
  build bytes c w = (w', inr a) →
  returns c a ∧ filesystem bytes w' = filesystem bytes w ∧
  constructed bytes w' = constructed bytes w ++ c.1.
Proof.
  unfold build, returns. destruct (c.2) as [e|a']; [done|]. by intros [= <- ->].
Qed.

Lemma read_file_inv path (w w' : world bytes) content :
  read_file bytes path w = (w', inr content) →
  w' = w ∧ filesystem bytes w !! path = Some (RegularFile bytes content).
Proof.
  unfold read_file. destruct (filesystem bytes w !! path) as [[|c]|]; [done| |done].
  by intros [= -> ->].
Qed.

Lemma new_run shape fs ks ss latent vae mdl (w : world bytes) :
  returns (init shape fs ks ss latent) vae → model vae = Some mdl →
  new bytes initial_values shape fs ks ss latent w =
    ({| filesystem := filesystem bytes w;
        constructed := constructed bytes w ++ (init shape fs ks ss latent).1 |},
     inr {| this := vae;
            variables := initial_variables initial_values (model_weight_shapes mdl) |}).
Proof.
  intros Hvae Hmdl. unfold new.
  erewrite io_bind_ok by (by apply build_returns).
  erewrite io_bind_ok by (by apply build_getattr). done.
Qed.

Lemma new_inv shape fs ks ss latent (w w' : world bytes) inst :
  new bytes initial_values shape fs ks ss latent w = (w', inr inst) →
  returns (init shape fs ks ss latent) (this inst) ∧
  (∃ mdl, model (this inst) = Some mdl ∧
          variables inst = initial_variables initial_values (model_weight_shapes mdl)) ∧
  filesystem bytes w' = filesystem bytes w ∧
  constructed bytes w' = constructed bytes w ++ (init shape fs ks ss latent).1.
Proof.
  unfold new. intros H.
  apply io_bind_inv in H as (w1 & vae & Hb & H). apply build_inv in Hb as (Hvae & Hfs & Hc).
  apply io_bind_inv in H as (w2 & mdl & Hb & H). apply build_inv in Hb as (Hmdl & Hfs2 & Hc2).
  apply returns_getattr in Hmdl. rewrite Hmdl in Hc2. simpl in Hc2.
  rewrite app_nil_r in Hc2. injection H as <- <-. simpl.
  split; [done|]. split; [eauto|]. split; congruence.
Qed.

Lemma init_fields shape fs ks ss latent vae :
  returns (init shape fs ks ss latent) vae →
  input_shape vae = shape ∧ filters vae = fs ∧ kernels vae = ks ∧ strides vae = ss ∧
  latent_space_shape vae = latent.
Proof.
  intros Hvae.
  apply init_inv in Hvae as (Hk & Hs & self1 & self2 & H1 & H2 & H3).
  apply build_encoder_inv in H1 as (sbl & m & s & z & -> & _).
  apply build_decoder_inv in H2 as (x & y & ->).
  apply build_vae_inv in H3 as (enc & dec & inp & _ & _ & _ & _ & _ & ->).
  done.
Qed.

Lemma length_initial_variables shapes :
  var_shape <$> initial_variables initial_values shapes = shapes.
Proof.
  unfold initial_variables. apply list_eq. intros i.
  rewrite list_lookup_fmap, list_lookup_imap.
  by destruct (shapes !! i).
Qed.




Lemma init_raises_on_mismatch shape fs ks ss latent :
  length fs ≠ length ks ∨ length fs ≠ length ss →
  ∃ msg, init shape fs ks ss latent = ([], inl (AssertionError msg)).
Proof.
  intros Hne. unfold init, assert.
  destruct (decide (length ks = length fs)) as [Hk|Hk].
  - rewrite (bool_decide_eq_true_2 _ Hk).
    rewrite bool_decide_eq_false_2 by (destruct Hne; congruence).
    by eexists.
  - rewrite (bool_decide_eq_false_2 _ Hk). by eexists.
Qed.

(** X13: loading runs the constructor's checks on the stored parameters: if
    [params.pkl] holds sequences of different lengths, loading raises the
    assertion error of the constructor, without constructing a layer and
    without looking at the weights file. *)
Theorem load_invalid_params (folder : string) (w : world bytes) content p :
  filesystem bytes w !! os_path_join folder "params.pkl" =
    Some (RegularFile bytes content) →
  pickle_load content = Some p →
  length (p_filters p) ≠ length (p_kernels p) ∨
  length (p_filters p) ≠ length (p_strides p) →
  ∃ msg, load bytes pickle_load h5_load initial_values folder w =
           (w, inl (Raised (AssertionError msg))).
Proof.
  intros Hc Hp Hne.
  destruct (init_raises_on_mismatch (p_input_shape p) _ _ _ (p_latent_space_shape p) Hne)
    as [msg Hmsg].
  exists msg. unfold load.
  erewrite io_bind_ok by (by apply read_file_ok).
  rewrite Hp. erewrite io_bind_ok by reflexivity.
  erewrite io_bind_err; [done|].
  unfold new. erewrite io_bind_err; [done|].
  unfold build. rewrite Hmsg. simpl. by rewrite app_nil_r, world_eta.
Qed.

(** X14: when the parameters are valid but the folder has no [weights.h5],
    loading raises [FileNotFoundError] only after the three models have been
    rebuilt: the layers of the construction are in the log, the files are
    untouched. *)
Theorem load_missing_weights (folder : string) (w : world bytes) content p vae :
  filesystem bytes w !! os_path_join folder "params.pkl" =
    Some (RegularFile bytes content) →
  pickle_load content = Some p →
  returns (init (p_input_shape p) (p_filters p) (p_kernels p) (p_strides p)
             (p_latent_space_shape p)) vae →
  filesystem bytes w !! os_path_join folder "weights.h5" = None →
  load bytes pickle_load h5_load initial_values folder w =
    ({| filesystem := filesystem bytes w;
        constructed := constructed bytes w ++
          (init (p_input_shape p) (p_filters p) (p_kernels p) (p_strides p)
             (p_latent_space_shape p)).1 |},
     inl (Raised FileNotFoundError)).
Proof.
  intros Hc Hp Hvae Hnone.
  pose proof Hvae as Hvae'. apply init_inv in Hvae' as (_ & _ & s1 & s2 & _ & _ & H3).
  apply build_vae_inv in H3 as (enc & dec & inp & _ & _ & _ & _ & _ & Heq).
  assert (∃ mdl, model vae = Some mdl) as [mdl Hmdl] by (rewrite Heq; simpl; eauto).
  unfold load.
  erewrite io_bind_ok by (by apply read_file_ok).
  rewrite Hp. erewrite io_bind_ok by reflexivity.
  erewrite io_bind_ok by (by eapply new_run).
  erewrite io_bind_ok by (by apply build_getattr).
  erewrite io_bind_err; [done|].
  unfold read_file. simpl. by rewrite Hnone.
Qed.

Lemma keeps_files_bind {A B} (c : IO bytes A) (f : A → IO bytes B) :
  keeps_files c → (∀ a, keeps_files (f a)) → keeps_files (c ≫= f).
Proof.
  intros Hc Hf w. unfold mbind, IO_bind. specialize (Hc w).
  destruct (c w) as [w1 [e|a]]; [done|]. simpl in Hc. by rewrite Hf.
Qed.

Lemma keeps_files_ret {A} (a : A) : keeps_files (mret a : IO bytes A).
Proof. done. Qed.

Lemma keeps_files_raise {A} e : keeps_files (io_raise bytes e : IO bytes A).
Proof. done. Qed.

Lemma keeps_files_build {A} (c : M A) : keeps_files (build bytes c).
Proof. done. Qed.

Lemma keeps_files_read_file path : keeps_files (read_file bytes path).
Proof.
  intros w. unfold read_file. by destruct (filesystem bytes w !! path) as [[|c]|].
Qed.

(** X15: loading never changes the file system, whether it returns an
    instance or raises. *)
Theorem load_keeps_files (folder : string) :
  keeps_files (load bytes pickle_load h5_load initial_values folder).
Proof.
  unfold load.
  apply keeps_files_bind; [apply keeps_files_read_file|]. intros content.
  apply keeps_files_bind.
  { destruct (pickle_load content); [apply keeps_files_ret | apply keeps_files_raise]. }
  intros p. apply keeps_files_bind.
  { unfold new. apply keeps_files_bind; [apply keeps_files_build|]. intros vae.
    apply keeps_files_bind; [apply keeps_files_build|]. intros mdl.
    apply keeps_files_ret. }
  intros vae. apply keeps_files_bind; [apply keeps_files_build|]. intros mdl.
  apply keeps_files_bind; [apply keeps_files_read_file|]. intros content2.
  apply keeps_files_bind.
  { destruct (h5_load content2); [apply keeps_files_ret | apply keeps_files_raise]. }
  intros snap.
  destruct (load_weights mdl snap); [apply keeps_files_ret | apply keeps_files_raise].
Qed.


(** X17: when [folder] is an existing regular file, saving raises
    [NotADirectoryError] and writes nothing. *)
Theorem save_not_a_directory (self : instance) (folder : string) (w : world bytes) content :
  filesystem bytes w !! folder = Some (RegularFile bytes content) →
  save bytes pickle_dump h5_dump self folder w = (w, inl NotADirectoryError).
Proof.
  intros Hfile. unfold save.
  erewrite io_bind_ok by reflexivity.
  rewrite Hfile, bool_decide_eq_true_2 by done.
  erewrite io_bind_ok by reflexivity.
  erewrite io_bind_err; [done|].
  unfold write_file. by rewrite Hfile.
Qed.

Lemma load_weights_fits (m : Model) (snap : snapshot) (vars : list variable) :
  load_weights m snap = Some vars → var_shape <$> vars = model_weight_shapes m.
Proof.
  unfold load_weights. destruct (decide _) as [Heq|]; [|done].
  intros [= <-].
  unfold model_weight_shapes, nodes_weight_shapes.
  rewrite <- (concat_filter_nonempty (_ <$> model_layers m)), <- Heq.
  generalize (filter (λ vs : list variable, vs ≠ []) snap.*2). intros ls.
  induction ls as [|l ls IH]; [done|].
  rewrite fmap_cons, !concat_cons, fmap_app. by rewrite IH.
Qed.

(** The instance returned by the constructor is consistent: its
    variables are the initial ones and have the shapes its model expects; no
    file is touched and the constructed layers are added to the log. *)
Theorem new_consistent shape fs ks ss latent (w w' : world bytes) (inst : instance) :
  new bytes initial_values shape fs ks ss latent w = (w', inr inst) →
  consistent inst ∧
  input_shape (this inst) = shape ∧ filters (this inst) = fs ∧
  kernels (this inst) = ks ∧ strides (this inst) = ss ∧
  latent_space_shape (this inst) = latent ∧
  filesystem bytes w' = filesystem bytes w ∧
  constructed bytes w' = constructed bytes w ++ (init shape fs ks ss latent).1.
Proof.
  intros H. apply new_inv in H as (Hinit & (mdl & Hmdl & Hvars) & Hfs & Hc).
  pose proof (init_fields _ _ _ _ _ _ Hinit) as (H1 & H2 & H3 & H4 & H5).
  split; [|done]. unfold consistent. split.
  - by rewrite H1, H2, H3, H4, H5.
  - exists mdl. split; [done|]. by rewrite Hvars, length_initial_variables.
Qed.

(** X18: whatever the folder holds, an instance returned by [load] is
    consistent: its parameters are the ones stored in [params.pkl], they
    pass the constructor's checks, and its variables are the values stored
    in [weights.h5], with the shapes its rebuilt model expects. *)
Theorem load_consistent (folder : string) (w w' : world bytes) (inst : instance) :
  load bytes pickle_load h5_load initial_values folder w = (w', inr inst) →
  consistent inst ∧
  ∃ c1 c2 snap,
    filesystem bytes w !! os_path_join folder "params.pkl" = Some (RegularFile bytes c1) ∧
    pickle_load c1 = Some (params_of (this inst)) ∧
    filesystem bytes w !! os_path_join folder "weights.h5" = Some (RegularFile bytes c2) ∧
    h5_load c2 = Some snap ∧
    variables inst = concat (snd <$> snap).
Proof.
  unfold load. intros H.
  apply io_bind_inv in H as (w1 & c1 & Hr1 & H). apply read_file_inv in Hr1 as (-> & Hc1).
  apply io_bind_inv in H as (w2 & p0 & Hp & H).
  destruct (pickle_load c1) as [p|] eqn:Hload; [|done]. injection Hp as <- <-.
  apply io_bind_inv in H as (w3 & vae & Hnew & H).
  apply new_inv in Hnew as (Hinit & (mdl & Hmdl & Hvars) & Hfs & Hc).
  apply io_bind_inv in H as (w4 & mdl' & Hb & H).
  apply build_inv in Hb as (Hmdl' & Hfs4 & _). apply returns_getattr in Hmdl'.
  apply io_bind_inv in H as (w5 & c2 & Hr2 & H). apply read_file_inv in Hr2 as (-> & Hc2).
  apply io_bind_inv in H as (w6 & snap0 & Hs & H).
  destruct (h5_load c2) as [snap|] eqn:Hh5; [|done]. injection Hs as <- <-.
  destruct (load_weights mdl' snap) as [vars|] eqn:Hlw; [|done].
  injection H as <- <-. simpl.
  pose proof (init_fields _ _ _ _ _ _ Hinit) as (H1 & H2 & H3 & H4 & H5).
  unfold consistent. simpl. split; [split|].
  - by rewrite H1, H2, H3, H4, H5.
  - exists mdl'. split; [done|]. by eapply load_weights_fits.
  - exists c1, c2, snap. rewrite Hfs4, Hfs in Hc2.
    split; [done|]. split.
    { rewrite Hload. f_equal. unfold params_of. rewrite H1, H2, H3, H4, H5. by destruct p. }
    split; [done|]. split; [done|].
    revert Hlw. unfold load_weights. destruct (decide _); [|done].
    intros [= <-]. apply concat_filter_nonempty.
Qed.

End PersistenceProperties.

(** ** The scenario, saved and loaded *)





Lemma load_invalid_params_witness :
  ∃ msg,
    load stored_value stored_pickle_load stored_h5_load (λ _ _, []) "checkpoint"
      (world_with_params mismatched_params) =
      (world_with_params mismatched_params, inl (Raised (AssertionError msg))).
Proof.
  apply (load_invalid_params stored_pickle_load stored_h5_load (λ _ _, []) "checkpoint"
           (world_with_params mismatched_params) (inl mismatched_params) mismatched_params).
  - vm_compute. reflexivity.
  - reflexivity.
  - left. simpl. lia.
Defined.

Lemma load_missing_weights_witness :
  (load stored_value stored_pickle_load stored_h5_load (λ _ _, []) "checkpoint"
     (world_with_params (params_of (this scenario_instance)))).2 =
    inl (Raised FileNotFoundError).
Proof.
  rewrite (load_missing_weights stored_pickle_load stored_h5_load (λ _ _, []) "checkpoint"
             (world_with_params (params_of (this scenario_instance)))
             (inl (params_of (this scenario_instance)))
             (params_of (this scenario_instance)) (this scenario_instance)).
  - reflexivity.
  - vm_compute. reflexivity.
  - reflexivity.
  - unfold returns. vm_compute. reflexivity.
  - vm_compute. reflexivity.
Defined.


Lemma save_not_a_directory_witness :
  save stored_value inl inr scenario_instance "checkpoint/params.pkl"
    (world_with_params mismatched_params) =
    (world_with_params mismatched_params, inl NotADirectoryError).
Proof.
  apply (save_not_a_directory inl inr scenario_instance "checkpoint/params.pkl"
           (world_with_params mismatched_params) (inl mismatched_params)).
  vm_compute. reflexivity.
Defined.

Lemma new_consistent_witness : consistent scenario_instance.
Proof.
  assert (new stored_value (λ _ _, []) [28; 28; 1] [32; 64] [IntV 3; IntV 3]
            [IntV 1; IntV 2] 2 empty_world =
          ((new stored_value (λ _ _, []) [28; 28; 1] [32; 64] [IntV 3; IntV 3]
              [IntV 1; IntV 2] 2 empty_world).1, inr scenario_instance)) as Hnew
    by (vm_compute; reflexivity).
  exact (proj1 (new_consistent (λ _ _, []) _ _ _ _ _ _ _ _ Hnew)).
Defined.

Lemma load_consistent_witness : consistent scenario_instance.
Proof.
  pose (w1 := (save stored_value inl inr scenario_instance "checkpoint" empty_world).1).
  assert (load stored_value stored_pickle_load stored_h5_load (λ _ _, []) "checkpoint" w1 =
          ((load stored_value stored_pickle_load stored_h5_load (λ _ _, [])
              "checkpoint" w1).1, inr scenario_instance)) as Hload
    by (vm_compute; reflexivity).
  exact (proj1 (load_consistent stored_pickle_load stored_h5_load (λ _ _, [])
                  "checkpoint" w1 _ scenario_instance Hload)).
Defined.

(** * The construction log *)

Lemma bind_log {A B} (c : M A) (f : A → M B) a :
  returns c a → (c ≫= f).1 = c.1 ++ (f a).1.
Proof.
  unfold returns, mbind, M_bind. destruct c as [log [e|a']]; simpl; [done|].
  intros [= ->]. by destruct (f a).
Qed.

Lemma returns_bind_log {A B} (c : M A) (f : A → M B) b :
  returns (c ≫= f) b →
  ∃ a, returns c a ∧ returns (f a) b ∧ (c ≫= f).1 = c.1 ++ (f a).1.
Proof.
  intros H. apply returns_bind in H as (a & Ha & Hb).
  exists a. split; [done|]. split; [done|]. by apply bind_log.
Qed.

Lemma getitem_log {A} (xs : list A) i : (getitem xs i).1 = [].
Proof. unfold getitem. by destruct (xs !! i). Qed.

Lemma getattr_log {A} (o : option A) : (getattr o).1 = [].
Proof. by destruct o. Qed.

Lemma call_model_log m x : (call_model m x).1 = [].
Proof. unfold call_model. by destruct (decide _). Qed.

Lemma apply_layer_log ly x y :
  returns (apply_layer ly x) y →
  (apply_layer ly x).1 = [ly] ∧
  node_layer <$> history y = (node_layer <$> history x) ++ [ly].
Proof.
  intros H. apply returns_apply_layer in H as (out & Hout & ->).
  unfold apply_layer. rewrite Hout. simpl. by rewrite fmap_app.
Qed.

Lemma apply_layer_logs ly x : logs_its_layers x (apply_layer ly x).
Proof.
  intros y Hy. destruct (apply_layer_log ly x y Hy) as [-> Hh]. done.
Qed.

Lemma logs_its_layers_bind x (c : M KTensor) (f : KTensor → M KTensor) :
  logs_its_layers x c → (∀ x', returns c x' → logs_its_layers x' (f x')) →
  logs_its_layers x (c ≫= f).
Proof.
  intros Hc Hf y Hy. apply returns_bind_log in Hy as (x' & Hx' & Hy & ->).
  rewrite (Hf x' Hx' y Hy), (Hc x' Hx'). by rewrite (assoc_L (++)).
Qed.

Lemma logs_its_layers_getitem {A} x (xs : list A) i (f : A → M KTensor) :
  (∀ a, logs_its_layers x (f a)) → logs_its_layers x (getitem xs i ≫= f).
Proof.
  intros Hf y Hy. apply returns_bind_log in Hy as (a & Ha & Hy & ->).
  rewrite getitem_log. simpl. by apply Hf.
Qed.

Lemma encoder_block_logs self l x : logs_its_layers x (encoder_block self l x).
Proof.
  unfold encoder_block.
  apply logs_its_layers_getitem. intros f.
  apply logs_its_layers_getitem. intros k.
  apply logs_its_layers_getitem. intros s.
  apply logs_its_layers_bind; [apply apply_layer_logs|]. intros x1 _.
  apply logs_its_layers_bind; [apply apply_layer_logs|]. intros x2 _.
  apply apply_layer_logs.
Qed.

Lemma decoder_block_logs self l x : logs_its_layers x (decoder_block self l x).
Proof.
  unfold decoder_block.
  apply logs_its_layers_getitem. intros f.
  apply logs_its_layers_getitem. intros k.
  apply logs_its_layers_getitem. intros s.
  apply logs_its_layers_bind; [apply apply_layer_logs|]. intros x1 _.
  apply logs_its_layers_bind; [apply apply_layer_logs|]. intros x2 _.
  apply apply_layer_logs.
Qed.

Lemma for_each_logs {A} (body : A → KTensor → M KTensor) xs x :
  (∀ a x', logs_its_layers x' (body a x')) →
  logs_its_layers x (for_each xs x body).
Proof.
  intros Hbody. revert x. induction xs as [|a xs IH]; intros x.
  - intros y Hy. apply returns_ret in Hy as <-. simpl. by rewrite app_nil_r.
  - simpl. apply logs_its_layers_bind; [apply Hbody|]. intros x' _. apply IH.
Qed.

Lemma build_encoder_log self self' :
  returns (build_encoder self) self' →
  ∃ enc, encoder self' = Some enc ∧
         (build_encoder self).1 = node_layer <$> model_layers enc.
Proof.
  unfold build_encoder. intros H.
  apply returns_bind_log in H as (inp & Hinp & H & ->).
  apply returns_bind_log in H as (x & Hx & H & ->).
  apply returns_bind_log in H as (x1 & Hx1 & H & ->).
  apply returns_bind_log in H as (m & Hm & H & ->).
  apply returns_bind_log in H as (s & Hs & H & ->).
  apply returns_bind_log in H as (z & Hz & H & ->).
  apply returns_ret in H as <-. simpl encoder. eexists. split; [done|].
  unfold model_layers. simpl model_output.
  rewrite (apply_layer_logs _ _ z Hz). simpl history.
  rewrite (apply_layer_logs _ _ s Hs). simpl history.
  rewrite (apply_layer_logs _ _ m Hm).
  rewrite (apply_layer_logs _ _ x1 Hx1).
  rewrite (for_each_logs _ _ _ (encoder_block_logs self) x Hx).
  apply returns_Input in Hinp as ->.
  rewrite <- !(assoc_L (++)). simpl. by rewrite ?app_nil_r.
Qed.

Lemma build_decoder_log self self' :
  returns (build_decoder self) self' →
  ∃ dec, decoder self' = Some dec ∧ encoder self' = encoder self ∧
         (build_decoder self).1 = node_layer <$> model_layers dec.
Proof.
  unfold build_decoder. intros H.
  apply returns_bind_log in H as (inp & Hinp & H & ->).
  apply returns_bind_log in H as (sbl & Hsbl & H & ->).
  apply returns_bind_log in H as (x1 & Hx1 & H & ->).
  apply returns_bind_log in H as (x2 & Hx2 & H & ->).
  apply returns_bind_log in H as (x3 & Hx3 & H & ->).
  apply returns_bind_log in H as (k & Hk & H & ->).
  apply returns_bind_log in H as (s & Hs & H & ->).
  apply returns_bind_log in H as (x4 & Hx4 & H & ->).
  apply returns_bind_log in H as (x5 & Hx5 & H & ->).
  apply returns_ret in H as <-. simpl decoder. simpl encoder.
  eexists. split; [done|]. split; [done|].
  unfold model_layers. simpl model_output.
  rewrite (apply_layer_logs _ _ x5 Hx5).
  rewrite (apply_layer_logs _ _ x4 Hx4).
  rewrite (for_each_logs _ _ _ (decoder_block_logs self) x3 Hx3).
  rewrite (apply_layer_logs _ _ x2 Hx2).
  rewrite (apply_layer_logs _ _ x1 Hx1).
  apply returns_Input in Hinp as ->.
  rewrite getattr_log, !getitem_log.
  rewrite <- !(assoc_L (++)). simpl. by rewrite ?app_nil_r.
Qed.

Lemma build_vae_log self self' :
  returns (build_vae self) self' →
  (build_vae self).1 = [] ∧ encoder self' = encoder self ∧ decoder self' = decoder self.
Proof.
  intros H. pose proof H as H'.
  apply build_vae_inv in H' as (enc & dec & inp & _ & _ & _ & _ & _ & ->).
  split; [|done]. unfold build_vae in *.
  apply returns_bind_log in H as (a1 & _ & H & ->).
  apply returns_bind_log in H as (a2 & _ & H & ->).
  apply returns_bind_log in H as (a3 & _ & H & ->).
  apply returns_bind_log in H as (a4 & _ & H & ->).
  apply returns_bind_log in H as (a5 & _ & H & ->).
  by rewrite !getattr_log, !call_model_log.
Qed.

(** X19: whenever construction returns, the layer objects it has
    constructed are exactly the layers of the encoder followed by the layers
    of the decoder, each once and in the order of the two models; the length
    checks and the composition of the two models construct no layer. *)
Theorem constructed_layers shape fs ks ss latent vae :
  returns (init shape fs ks ss latent) vae →
  ∃ enc dec,
    encoder vae = Some enc ∧ decoder vae = Some dec ∧
    (init shape fs ks ss latent).1 =
      (node_layer <$> model_layers enc) ++ (node_layer <$> model_layers dec).
Proof.
  intros Hvae. pose proof Hvae as Hvae'.
  apply init_inv in Hvae' as (Hk & Hs & self1 & self2 & H1 & H2 & H3).
  destruct (build_encoder_log _ _ H1) as (enc & Henc & Hlog1).
  destruct (build_decoder_log _ _ H2) as (dec & Hdec & Henc2 & Hlog2).
  destruct (build_vae_log _ _ H3) as (Hlog3 & Henc3 & Hdec3).
  exists enc, dec. split; [congruence|]. split; [congruence|].
  unfold init, assert.
  rewrite !bool_decide_eq_true_2 by done.
  rewrite (bind_log (mret ()) _ ()) by done.
  rewrite (bind_log (mret ()) _ ()) by done.
  unfold build_model.
  rewrite (bind_log _ _ self1) by done.
  rewrite (bind_log _ _ self2) by done.
  fold (fresh_instance shape fs ks ss latent).
  rewrite Hlog1, Hlog2, Hlog3. simpl. by rewrite app_nil_r.
Qed.

Lemma constructed_layers_witness :
  ∃ enc dec,
    encoder (this scenario_instance) = Some enc ∧
    decoder (this scenario_instance) = Some dec ∧
    scenario.1 = (node_layer <$> model_layers enc) ++ (node_layer <$> model_layers dec).
Proof.
  apply (constructed_layers [28; 28; 1] [32; 64] [IntV 3; IntV 3] [IntV 1; IntV 2] 2
           (this scenario_instance)).
  unfold returns. vm_compute. reflexivity.
Defined.
